(** * GitHubPortfolioManager: the portfolio aggregation and caching layer

    A shallow embedding of [src/portfolio/github-manager.js] together with
    the configuration object of [src/portfolio/config.js].

    Conventions of the embedding.
    - A JavaScript string is a [string] of 8-bit code units.  Case mapping
      ([toLowerCase], [toUpperCase]) acts on the ASCII letters and leaves
      every other code unit alone; repository names are ASCII.
    - A JavaScript object that may lack a property, or hold [null] in it,
      has an [option] field; JSON payloads are read at the types the
      manager uses them at.
    - [Date.now()] is the explicit argument [now] of the public operations,
      an integer number of milliseconds.
    - An [async] method is a computation [M A]: it takes the manager's
      mutable state (the cache, and the list of requests sent so far), and
      gives an outcome (fulfilled or rejected) and the state it leaves.
      Effects made before a rejection stay. *)

From Stdlib Require Import ZArith List String Ascii Bool Lia.
From Stdlib Require Import Permutation Sorted OrdersEx.
Import ListNotations.

Local Open Scope string_scope.
Local Open Scope list_scope.

(* ================================================================= *)
(** ** JavaScript values used by the manager *)

Module JS.

(** [a || b] on an optional string: [undefined], [null] and [""] are falsy. *)
Definition or_string (a : option string) (b : string) : string :=
  match a with
  | Some s => if (s =? "")%string then b else s
  | None => b
  end.

(** [a || false] on an optional boolean. *)
Definition or_false (a : option bool) : bool :=
  match a with
  | Some v => v
  | None => false
  end.

(** [a || []] on an optional array: every array is truthy. *)
Definition or_empty {A : Type} (a : option (list A)) : list A :=
  match a with
  | Some l => l
  | None => []
  end.

Definition is_upper (c : ascii) : bool :=
  (65 <=? nat_of_ascii c)%nat && (nat_of_ascii c <=? 90)%nat.

Definition is_lower (c : ascii) : bool :=
  (97 <=? nat_of_ascii c)%nat && (nat_of_ascii c <=? 122)%nat.

Definition lower_unit (c : ascii) : ascii :=
  if is_upper c then ascii_of_nat (nat_of_ascii c + 32) else c.

Definition upper_unit (c : ascii) : ascii :=
  if is_lower c then ascii_of_nat (nat_of_ascii c - 32) else c.

Fixpoint map_units (f : ascii -> ascii) (s : string) : string :=
  match s with
  | EmptyString => EmptyString
  | String c r => String (f c) (map_units f r)
  end.

(** [String.prototype.toLowerCase] and [toUpperCase]. *)
Definition toLowerCase (s : string) : string := map_units lower_unit s.
Definition toUpperCase (s : string) : string := map_units upper_unit s.

(** [s.charAt(0)]: the first code unit as a string, [""] on [""]. *)
Definition charAt0 (s : string) : string :=
  match s with
  | EmptyString => EmptyString
  | String c _ => String c EmptyString
  end.

(** [s.slice(1)]. *)
Definition slice1 (s : string) : string :=
  match s with
  | EmptyString => EmptyString
  | String _ r => r
  end.

Fixpoint all_units (p : ascii -> bool) (s : string) : bool :=
  match s with
  | EmptyString => true
  | String c r => p c && all_units p r
  end.

Fixpoint any_unit (p : ascii -> bool) (s : string) : bool :=
  match s with
  | EmptyString => false
  | String c r => p c || any_unit p r
  end.

(** The code units the regular-expression atom [.] refuses. *)
Definition is_line_terminator (c : ascii) : bool :=
  (nat_of_ascii c =? 10)%nat || (nat_of_ascii c =? 13)%nat.

(** The value of [str.match(re)] for a pattern without the [g] flag:
    [None] is [null]; [Some g] is a match array whose element [1] is [g]
    ([None] when the pattern has no first group or it did not take part). *)
Definition RegExp : Type := string -> option (option string).

(** [Array.prototype.sort(comparefn)], as the stable insertion sort: the
    element [x] goes before the first [y] with [comparefn(x, y) <= 0]. *)
Section Sort.
Context {A : Type} (comparefn : A -> A -> Z).

Fixpoint sort_insert (x : A) (l : list A) : list A :=
  match l with
  | [] => [x]
  | y :: r => if (comparefn x y <=? 0)%Z then x :: y :: r
              else y :: sort_insert x r
  end.

Fixpoint sort (l : list A) : list A :=
  match l with
  | [] => []
  | x :: r => sort_insert x (sort r)
  end.
End Sort.

End JS.

(* ================================================================= *)
(** ** Data model *)

(** A repository descriptor, as the provider lists it. *)
Module Repo.
Record t : Type := mk {
  name : string;
  description : option string;
  html_url : option string;
  homepage : option string;
  stargazers_count : option Z;
  forks_count : option Z;
  updated_at : option string;
  language : option string;
  topics : option (list string);
  default_branch : option string;
  private : option bool
}.

(** The object literal [{ name: n, default_branch: b }]. *)
Definition named (n : string) (b : option string) : t :=
  mk n None None None None None None None None b None.
End Repo.

(** The optional [portfolio.json] of a repository. *)
Module RepoConfig.
Record t : Type := mk {
  name : option string;
  description : option string;
  thumbnail : option string;
  featured : option bool
}.
End RepoConfig.

(** A portfolio entry.  A static entry of the configuration has [name],
    [slug], [path], [description] and [featured]; a dynamic one has the
    fields [transformToPortfolio] writes.  [isDynamic] and [featured] are
    read for their truthiness only: a missing flag is [false], and a
    missing list of topics is empty. *)
Module Portfolio.
Record t : Type := mk {
  name : string;
  slug : string;
  path : option string;
  description : string;
  repoUrl : option string;
  homepage : option string;
  stars : option Z;
  forks : option Z;
  updatedAt : option string;
  language : option string;
  topics : list string;
  defaultBranch : option string;
  thumbnail : option string;
  isDynamic : bool;
  featured : bool;
  isPrivate : bool
}.

(** A static entry as [config.js] writes them. *)
Definition static (n s p d : string) (f : bool) : t :=
  mk n s (Some p) d None None None None None None [] None None false f false.
End Portfolio.

(** A parsed JSON value, at the shapes the manager reads. *)
Inductive Json : Type :=
| JRepos (rs : list Repo.t)       (* an array, read as descriptors *)
| JConfig (c : RepoConfig.t)      (* an object, read as portfolio.json *)
| JTree (paths : list string)     (* an object without those properties *)
| JPrimitive.                     (* null, a number, a string, a boolean *)

(** What [githubRequest] resolves to: [response.json()] or [response.text()]. *)
Inductive Payload : Type :=
| PJson (j : Json)
| PText (s : string).

(** [config?.name] and its siblings, on what [fetchPortfolioConfig] returned
    ([None] is [null]). *)
Definition config_name (c : option Json) : option string :=
  match c with Some (JConfig o) => RepoConfig.name o | _ => None end.
Definition config_description (c : option Json) : option string :=
  match c with Some (JConfig o) => RepoConfig.description o | _ => None end.
Definition config_thumbnail (c : option Json) : option string :=
  match c with Some (JConfig o) => RepoConfig.thumbnail o | _ => None end.
Definition config_featured (c : option Json) : option bool :=
  match c with Some (JConfig o) => RepoConfig.featured o | _ => None end.

Record ExpectedFiles : Type := {
  readme : string;
  config : string;
  thumbnail : string
}.

Record Config : Type := {
  githubOwner : string;
  repoPattern : JS.RegExp;
  staticPortfolios : list Portfolio.t;
  cacheDuration : Z;
  expectedFiles : ExpectedFiles
}.

(** The body [githubRequest] posts to the [/api/github] function:
    [{ endpoint, owner, ...params }]. *)
Record Request : Type := {
  endpoint : string;
  owner : string;
  repo : option string;
  path : option string;
  branch : option string
}.

(** [this.cache]. *)
Record Cache : Type := {
  data : option (list Portfolio.t);
  timestamp : option Z
}.

(** The mutable state of one manager: its cache, and the requests it has
    sent, oldest first. *)
Record World : Type := {
  cache : Cache;
  requests : list Request
}.

(** The state the constructor leaves. *)
Definition new_world : World :=
  {| cache := {| data := None; timestamp := None |}; requests := [] |}.

(** The result of [getPortfolioContent]: [{ ...portfolio, readme, tree }]. *)
Record Content : Type := {
  entry : Portfolio.t;
  content_readme : option Payload;
  content_tree : option Payload
}.

(* ================================================================= *)
(** ** Asynchronous computations *)

Definition Error : Type := string.

Inductive Outcome (A : Type) : Type :=
| Fulfilled (a : A)
| Rejected (e : Error).
Arguments Fulfilled {A} a.
Arguments Rejected {A} e.

Definition M (A : Type) : Type := World -> Outcome A * World.

Definition ret {A : Type} (a : A) : M A := fun w => (Fulfilled a, w).

Definition throw {A : Type} (e : Error) : M A := fun w => (Rejected e, w).

Definition bind {A B : Type} (m : M A) (k : A -> M B) : M B :=
  fun w =>
    match m w with
    | (Fulfilled a, w') => k a w'
    | (Rejected e, w') => (Rejected e, w')
    end.

(** [try { m } catch (error) { h error }]. *)
Definition try_catch {A : Type} (m : M A) (h : Error -> M A) : M A :=
  fun w =>
    match m w with
    | (Fulfilled a, w') => (Fulfilled a, w')
    | (Rejected e, w') => h e w'
    end.

Declare Scope async_scope.
Delimit Scope async_scope with async.
Notation "x <- m ;; k" := (bind m (fun x => k))
  (at level 61, m at next level, right associativity) : async_scope.
Local Open Scope async_scope.

Definition get_cache : M Cache := fun w => (Fulfilled (cache w), w).

Definition set_cache (c : Cache) : M unit :=
  fun w => (Fulfilled tt, {| cache := c; requests := requests w |}).

(** [Promise.all] over promises started in index order: every one runs to
    its end, and the result is rejected as soon as one of them is. *)
Definition join_outcome {A : Type} (o : Outcome A) (os : Outcome (list A))
  : Outcome (list A) :=
  match o, os with
  | Fulfilled a, Fulfilled l => Fulfilled (a :: l)
  | Rejected e, _ => Rejected e
  | Fulfilled _, Rejected e => Rejected e
  end.

Fixpoint Promise_all {A : Type} (ms : list (M A)) : M (list A) :=
  match ms with
  | [] => ret []
  | m :: rest =>
      fun w =>
        let (o, w1) := m w in
        let (os, w2) := Promise_all rest w1 in
        (join_outcome o os, w2)
  end.

(** [Promise.all([m1, m2])] with its destructuring [const [a, b] = ...]. *)
Definition Promise_all2 {A B : Type} (m1 : M A) (m2 : M B) : M (A * B) :=
  fun w =>
    let (o1, w1) := m1 w in
    let (o2, w2) := m2 w1 in
    (match o1, o2 with
     | Fulfilled a, Fulfilled b => Fulfilled (a, b)
     | Rejected e, _ => Rejected e
     | Fulfilled _, Rejected e => Rejected e
     end, w2).

(* ================================================================= *)
(** ** The manager *)

Section Manager.

(** The platform: [JSON.parse] ([None] when it throws) and
    [String.prototype.localeCompare]. *)
Variable JSON_parse : string -> option Json.
Variable localeCompare : string -> string -> Z.

(** [this.config]. *)
Variable cfg : Config.

(** The repository data provider behind [fetch(this.apiEndpoint, ...)],
    after the decoding [githubRequest] does: given the requests sent
    before and the request, the decoded body, or a rejection for a
    network failure, a status that is not ok or a body that does not
    decode. *)
Variable provider : list Request -> Request -> Outcome Payload.

Definition githubRequest (ep : string) (rp pa br : option string)
  : M Payload :=
  fun w =>
    let rq := {| endpoint := ep; owner := githubOwner cfg;
                 repo := rp; path := pa; branch := br |} in
    (provider (requests w) rq,
     {| cache := cache w; requests := requests w ++ [rq] |}).

Definition fetchRepositories : M (list Repo.t) :=
  try_catch
    (repos <- githubRequest "repos" None None None ;;
     ret (match repos with
          | PJson (JRepos rs) => rs
          | _ => []
          end))
    (fun _ => ret []).

Definition filterPortfolioRepos (repos : list Repo.t) : list Repo.t :=
  filter (fun r => match repoPattern cfg (Repo.name r) with
                   | Some _ => true
                   | None => false
                   end) repos.

Definition extractPortfolioName (repoName : string) : string :=
  match repoPattern cfg repoName with
  | Some (Some g) =>
      if (g =? "")%string then repoName
      else JS.toUpperCase (JS.charAt0 g) ++ JS.slice1 g
  | _ => repoName
  end.

Definition branch_of (r : Repo.t) : string :=
  JS.or_string (Repo.default_branch r) "main".

Definition fetchPortfolioConfig (r : Repo.t) : M (option Json) :=
  try_catch
    (d <- githubRequest "raw" (Some (Repo.name r))
            (Some (config (expectedFiles cfg))) (Some (branch_of r)) ;;
     match d with
     | PText s =>
         match JSON_parse s with
         | Some j => ret (Some j)
         | None => throw "SyntaxError"
         end
     | PJson j => ret (Some j)
     end)
    (fun _ => ret None).

Definition fetchReadme (r : Repo.t) : M (option Payload) :=
  try_catch
    (d <- githubRequest "raw" (Some (Repo.name r))
            (Some (readme (expectedFiles cfg))) (Some (branch_of r)) ;;
     ret (Some d))
    (fun _ => ret None).

Definition fetchRepoTree (r : Repo.t) : M (option Payload) :=
  try_catch
    (t <- githubRequest "tree" (Some (Repo.name r)) None
            (Some (branch_of r)) ;;
     ret (Some t))
    (fun _ => ret None).

Definition default_thumbnail (r : Repo.t) : string :=
  "https://raw.githubusercontent.com/" ++ githubOwner cfg ++ "/"
    ++ Repo.name r ++ "/" ++ branch_of r ++ "/"
    ++ thumbnail (expectedFiles cfg).

(** The object [transformToPortfolio] returns, over the descriptor and
    the config it read. *)
Definition portfolio_entry (r : Repo.t) (c : option Json) : Portfolio.t :=
  let portfolioName := extractPortfolioName (Repo.name r) in
  {| Portfolio.name := JS.or_string (config_name c) portfolioName;
     Portfolio.slug := JS.toLowerCase (Repo.name r);
     Portfolio.path := None;
     Portfolio.description :=
       JS.or_string (config_description c)
         (JS.or_string (Repo.description r) "No description available");
     Portfolio.repoUrl := Repo.html_url r;
     Portfolio.homepage := Repo.homepage r;
     Portfolio.stars := Repo.stargazers_count r;
     Portfolio.forks := Repo.forks_count r;
     Portfolio.updatedAt := Repo.updated_at r;
     Portfolio.language := Repo.language r;
     Portfolio.topics := JS.or_empty (Repo.topics r);
     Portfolio.defaultBranch := Some (branch_of r);
     Portfolio.thumbnail :=
       Some (JS.or_string (config_thumbnail c) (default_thumbnail r));
     Portfolio.isDynamic := true;
     Portfolio.featured := JS.or_false (config_featured c);
     Portfolio.isPrivate := JS.or_false (Repo.private r) |}.

Definition transformToPortfolio (r : Repo.t) : M Portfolio.t :=
  c <- fetchPortfolioConfig r ;;
  ret (portfolio_entry r c).

(** The comparison function given to [sort]. *)
Definition compare_portfolios (a b : Portfolio.t) : Z :=
  if Portfolio.featured a && negb (Portfolio.featured b) then (-1)%Z
  else if negb (Portfolio.featured a) && Portfolio.featured b then 1%Z
  else localeCompare (Portfolio.name a) (Portfolio.name b).

(** The test of the fast path:
    [this.cache.data && this.cache.timestamp &&
     (now - this.cache.timestamp < this.config.cacheDuration)].
    An array is truthy; a number is truthy unless it is [0]. *)
Definition cache_hit (c : Cache) (now : Z) : option (list Portfolio.t) :=
  match data c, timestamp c with
  | Some d, Some t =>
      if negb (t =? 0)%Z && (now - t <? cacheDuration cfg)%Z
      then Some d else None
  | _, _ => None
  end.

(** The body of [getAllPortfolios], over the method it reaches through
    [this.transformToPortfolio]. *)
Definition getAllPortfolios_with (transform : Repo.t -> M Portfolio.t)
    (now : Z) : M (list Portfolio.t) :=
  c <- get_cache ;;
  match cache_hit c now with
  | Some d => ret d
  | None =>
      repos <- fetchRepositories ;;
      let portfolioRepos := filterPortfolioRepos repos in
      dynamicPortfolios <- Promise_all (map transform portfolioRepos) ;;
      let allPortfolios :=
        JS.sort compare_portfolios
          (staticPortfolios cfg ++ dynamicPortfolios) in
      _ <- set_cache {| data := Some allPortfolios;
                        timestamp := Some now |} ;;
      ret allPortfolios
  end.

Definition getAllPortfolios (now : Z) : M (list Portfolio.t) :=
  getAllPortfolios_with transformToPortfolio now.

(** [undefined] is [None]. *)
Definition getPortfolio (now : Z) (slug : string)
  : M (option Portfolio.t) :=
  portfolios <- getAllPortfolios now ;;
  ret (find (fun p => (Portfolio.slug p =? slug)%string) portfolios).

(** [null] is [None]. *)
Definition getPortfolioContent (now : Z) (slug : string)
  : M (option Content) :=
  portfolio <- getPortfolio now slug ;;
  match portfolio with
  | None => ret None
  | Some p =>
      if negb (Portfolio.isDynamic p) then ret None
      else
        rt <- Promise_all2
                (fetchReadme (Repo.named slug (Portfolio.defaultBranch p)))
                (fetchRepoTree (Repo.named slug (Portfolio.defaultBranch p))) ;;
        ret (Some {| entry := p;
                     content_readme := fst rt;
                     content_tree := snd rt |})
  end.

End Manager.

(* ================================================================= *)
(** ** The configuration of [config.js] *)

(** [/^portfolio(.+)$/i]: the nine letters in either case, then one or more
    code units up to the end of the string, none a line terminator. *)
Definition portfolio_pattern : JS.RegExp :=
  fun s =>
    let rest := substring 9 (String.length s - 9) s in
    if (JS.toLowerCase (substring 0 9 s) =? "portfolio")%string
       && negb (rest =? "")%string
       && JS.all_units (fun c => negb (JS.is_line_terminator c)) rest
    then Some (Some rest)
    else None.

Definition PORTFOLIO_CONFIG : Config :=
  {| githubOwner := "Trizly-xyz";
     repoPattern := portfolio_pattern;
     staticPortfolios :=
       [ Portfolio.static "Bloxy" "bloxy" "/portfolio/bloxy/"
           "Roblox community management bot" true;
         Portfolio.static "Mason" "mason" "/portfolio/mason/"
           "Advanced Discord bot" true;
         Portfolio.static "Trizl" "trizl" "/portfolio/trizl/"
           "Next-gen community tools" true ];
     cacheDuration := 5 * 60 * 1000;
     expectedFiles := {| readme := "README.md";
                         config := "portfolio.json";
                         thumbnail := "thumbnail.png" |} |}.

(* ================================================================= *)
(** ** Requests, and vocabulary of the statements *)

Definition repos_request (cfg : Config) : Request :=
  {| endpoint := "repos"; owner := githubOwner cfg;
     repo := None; path := None; branch := None |}.

Definition raw_request (cfg : Config) (rp file br : string) : Request :=
  {| endpoint := "raw"; owner := githubOwner cfg;
     repo := Some rp; path := Some file; branch := Some br |}.

Definition tree_request (cfg : Config) (rp br : string) : Request :=
  {| endpoint := "tree"; owner := githubOwner cfg;
     repo := Some rp; path := None; branch := Some br |}.

Definition config_request (cfg : Config) (r : Repo.t) : Request :=
  raw_request cfg (Repo.name r) (config (expectedFiles cfg)) (branch_of r).

Definition sent (rq : Request) (w : World) : World :=
  {| cache := cache w; requests := requests w ++ [rq] |}.

Definition is_list_fetch (rq : Request) : bool :=
  (endpoint rq =? "repos")%string.

(** How many times the repository list was asked of the provider. *)
Definition list_fetches (w : World) : nat :=
  List.length (filter is_list_fetch (requests w)).

(** The provider's answer as [fetchRepositories] reads it. *)
Definition repos_of (o : Outcome Payload) : list Repo.t :=
  match o with
  | Fulfilled (PJson (JRepos rs)) => rs
  | _ => []
  end.

(** The provider's answer as [fetchPortfolioConfig] reads it. *)
Definition config_of (JSON_parse : string -> option Json)
    (o : Outcome Payload) : option Json :=
  match o with
  | Fulfilled (PJson j) => Some j
  | Fulfilled (PText s) => JSON_parse s
  | Rejected _ => None
  end.

(** The provider's answer as [fetchReadme] and [fetchRepoTree] read it. *)
Definition optional_of (o : Outcome Payload) : option Payload :=
  match o with
  | Fulfilled d => Some d
  | Rejected _ => None
  end.

(** The test [p => p.slug === slug] of [getPortfolio]. *)
Definition has_slug (slug : string) (p : Portfolio.t) : bool :=
  (Portfolio.slug p =? slug)%string.

(** [x] may stand before [y] for the comparison function. *)
Definition below {A : Type} (comparefn : A -> A -> Z) (x y : A) : Prop :=
  (comparefn x y <= 0)%Z.

(** Featured entries first, then by name: of two entries, the later one is
    featured only if the earlier one is, and at equal featuredness the
    earlier name compares below or equal to the later one. *)
Definition in_order (localeCompare : string -> string -> Z)
    (a b : Portfolio.t) : Prop :=
  (Portfolio.featured b = true -> Portfolio.featured a = true) /\
  (Portfolio.featured a = Portfolio.featured b ->
   (localeCompare (Portfolio.name a) (Portfolio.name b) <= 0)%Z).

Definition featured_then_name (localeCompare : string -> string -> Z)
    (l : list Portfolio.t) : Prop :=
  forall l1 a l2 b l3,
    l = l1 ++ a :: l2 ++ b :: l3 -> in_order localeCompare a b.

(** The cached sequence, when there is one, is in order and is made of the
    static entries and of dynamic ones. *)
Definition cache_in_order (localeCompare : string -> string -> Z)
    (cfg : Config) (w : World) : Prop :=
  forall d, data (cache w) = Some d ->
    featured_then_name localeCompare d /\
    exists dyn, Permutation (staticPortfolios cfg ++ dyn) d.

(** A comparison function that orders the strings: antisymmetric in sign
    and transitive, as ECMAScript asks of [localeCompare]. *)
Definition consistent (localeCompare : string -> string -> Z) : Prop :=
  (forall a b, Z.sgn (localeCompare a b) = (- Z.sgn (localeCompare b a))%Z) /\
  (forall a b c, (localeCompare a b <= 0)%Z -> (localeCompare b c <= 0)%Z ->
                 (localeCompare a c <= 0)%Z).

(** [name] matches [/^portfolio(.+)$/i] with [rest] as its first group. *)
Definition matches_portfolio (name rest : string) : Prop :=
  exists pre,
    name = (pre ++ rest)%string /\
    JS.toLowerCase pre = "portfolio" /\
    rest <> "" /\
    JS.all_units (fun c => negb (JS.is_line_terminator c)) rest = true.

(** The states a manager goes through: the constructor's, then the one
    each public operation leaves. *)
Inductive reachable (JSON_parse : string -> option Json)
    (localeCompare : string -> string -> Z) (cfg : Config)
    (provider : list Request -> Request -> Outcome Payload)
  : World -> Prop :=
| reach_new : reachable JSON_parse localeCompare cfg provider new_world
| reach_all now w :
    reachable JSON_parse localeCompare cfg provider w ->
    reachable JSON_parse localeCompare cfg provider
      (snd (getAllPortfolios JSON_parse localeCompare cfg provider now w))
| reach_one now slug w :
    reachable JSON_parse localeCompare cfg provider w ->
    reachable JSON_parse localeCompare cfg provider
      (snd (getPortfolio JSON_parse localeCompare cfg provider now slug w))
| reach_content now slug w :
    reachable JSON_parse localeCompare cfg provider w ->
    reachable JSON_parse localeCompare cfg provider
      (snd (getPortfolioContent JSON_parse localeCompare cfg provider
              now slug w)).

(* ================================================================= *)
(** ** Concrete platforms, providers and configurations *)

(** Comparison by code units, a consistent comparison function. *)
Definition codeUnitCompare (a b : string) : Z :=
  match String_as_OT.compare a b with
  | Lt => (-1)%Z
  | Eq => 0%Z
  | Gt => 1%Z
  end.

(** A [JSON.parse] that throws on every text. *)
Definition never_parses : string -> option Json := fun _ => None.

(** A provider that is down. *)
Definition offline : list Request -> Request -> Outcome Payload :=
  fun _ _ => Rejected "Failed to fetch".

Definition repo_named (n : string) : Repo.t :=
  Repo.mk n None None None (Some 0%Z) (Some 0%Z) None None (Some [])
    (Some "main") (Some false).

(** An account with the repositories [portfolioApple], [notes] and
    [portfolioBear]; only the last has a [portfolio.json], which marks it
    featured. *)
Definition demo_provider : list Request -> Request -> Outcome Payload :=
  fun _ rq =>
    if (endpoint rq =? "repos")%string then
      Fulfilled (PJson (JRepos [repo_named "portfolioApple";
                                repo_named "notes";
                                repo_named "portfolioBear"]))
    else if (endpoint rq =? "raw")%string then
      match repo rq, path rq with
      | Some rp, Some pa =>
          if (rp =? "portfolioBear")%string && (pa =? "portfolio.json")%string
          then Fulfilled (PJson (JConfig
                 (RepoConfig.mk None None None (Some true))))
          else if (pa =? "README.md")%string
          then Fulfilled (PText "# readme")
          else Rejected "API error: 404"
      | _, _ => Rejected "API error: 400"
      end
    else Rejected "API error: 404".

(** The configuration of [config.js] with [Trizl] as its only static entry. *)
Definition demo_config : Config :=
  {| githubOwner := githubOwner PORTFOLIO_CONFIG;
     repoPattern := repoPattern PORTFOLIO_CONFIG;
     staticPortfolios :=
       [ Portfolio.static "Trizl" "trizl" "/portfolio/trizl/"
           "Next-gen community tools" true ];
     cacheDuration := cacheDuration PORTFOLIO_CONFIG;
     expectedFiles := expectedFiles PORTFOLIO_CONFIG |}.

(** A [transformToPortfolio] overridden to throw on [portfolioBear]. *)
Definition flaky_transform (r : Repo.t) : M Portfolio.t :=
  if (Repo.name r =? "portfolioBear")%string
  then throw "transform failed"
  else transformToPortfolio never_parses demo_config demo_provider r.

(* ================================================================= *)
(** ** [fetchFileContent] *)

Section FileContent.

Variable cfg : Config.
Variable provider : list Request -> Request -> Outcome Payload.

(** The default of the parameter [branch = 'main'] stands in for a
    missing argument ([None]) only: an empty string is sent as it is. *)
Definition fetchFileContent (repoName filePath : string)
    (branch : option string) : M (option Payload) :=
  let br := match branch with Some b => b | None => "main" end in
  try_catch
    (d <- githubRequest cfg provider "raw" (Some repoName)
            (Some filePath) (Some br) ;;
     ret (Some d))
    (fun _ => ret None).

End FileContent.

(* ================================================================= *)
(** ** HTTP values of the two Pages Functions *)

Module Http.

(** A JSON value; a number is an integer here. *)
#[warnings="-register-all"]
Inductive JValue : Type :=
| JNull
| JBool (b : bool)
| JNum (n : Z)
| JStr (s : string)
| JArr (items : list JValue)
| JObj (fields : list (string * JValue)).

Definition Headers : Type := list (string * string).

(** The body given to [new Response]: [null], a string, or
    [JSON.stringify(v)]. *)
Inductive Body : Type :=
| BNull
| BText (s : string)
| BJson (v : JValue).

Record Response : Type := {
  status : Z;
  headers : Headers;
  body : Body
}.

(** [o[k]] on the own properties of an object. *)
Fixpoint get (k : string) (fields : list (string * JValue))
  : option JValue :=
  match fields with
  | [] => None
  | (k', v) :: r => if (k' =? k)%string then Some v else get k r
  end.

(** [v.k]: reading a property of [null] throws a [TypeError], whose
    message names the property; a value that is not an object has none of
    the properties read here. *)
Definition prop (k : string) (v : JValue) : Outcome (option JValue) :=
  match v with
  | JNull =>
      Rejected ("Cannot read properties of null (reading '" ++ k ++ "')")%string
  | JObj fields => Fulfilled (get k fields)
  | _ => Fulfilled None
  end.

(** Truthiness of a property that was read. *)
Definition truthy (v : option JValue) : bool :=
  match v with
  | None | Some JNull | Some (JBool false) => false
  | Some (JNum n) => negb (n =? 0)%Z
  | Some (JStr s) => negb (s =? "")%string
  | Some _ => true
  end.

(** [a || b] on strings that may be missing. *)
Definition nonempty (a : option string) : option string :=
  match a with
  | Some s => if (s =? "")%string then None else Some s
  | None => None
  end.

(** [hay.includes(needle)]. *)
Definition includes (hay needle : string) : bool :=
  match index 0 needle hay with
  | Some _ => true
  | None => false
  end.

(** A value inside a template literal: a missing one reads [undefined]. *)
Definition tpl (x : option string) : string :=
  match x with
  | Some s => s
  | None => "undefined"
  end.

Definition null_body_status (st : Z) : bool :=
  (st =? 204)%Z || (st =? 205)%Z || (st =? 304)%Z.

(** [new Response(b, { status: st, headers: h })], which throws a
    [RangeError] for a status outside 200..599 and a [TypeError] for a
    body on a status that takes none. *)
Definition new_Response (b : Body) (st : Z) (h : Headers)
  : Outcome Response :=
  if (st <? 200)%Z || (599 <? st)%Z then
    Rejected "Responses may only be constructed with status codes in the range 200 to 599, inclusive."
  else if null_body_status st
          && match b with BNull => false | _ => true end then
    Rejected "Response with null body status cannot have a body."
  else Fulfilled {| status := st; headers := h; body := b |}.

Definition has_header (k v : string) (r : Response) : Prop :=
  In (k, v) (headers r).

End Http.

(* ================================================================= *)
(** ** The GitHub proxy: [onRequest] *)

Module GithubProxy.

Import Http.
Local Open Scope string_scope.

(** [env]: the token is [None] when the variable is not set. *)
Record Env : Type := { GITHUB_TOKEN : option string }.

(** What [request.json()] gives, read through the destructuring
    [{ endpoint, owner, repo, path, branch }]; a missing property is
    [None]. *)
Record RequestData : Type := {
  endpoint : option string;
  owner : option string;
  repo : option string;
  path : option string;
  branch : option string
}.

(** The incoming request: its method, and [request.json()], rejected when
    the body is not JSON or is [null]. *)
Record Request : Type := {
  method : string;
  json : Outcome RequestData
}.

(** GitHub's answer: [ok] is read off the status. *)
Record GithubResponse : Type := {
  gh_status : Z;
  content_type : option string;
  gh_json : Outcome JValue;
  gh_text : string
}.

Definition ok (g : GithubResponse) : bool :=
  (200 <=? gh_status g)%Z && (gh_status g <=? 299)%Z.

(** One call of [fetch(githubUrl, { headers })]. *)
Definition Call : Type := (string * Headers)%type.

Definition cors_json : Headers :=
  [("Content-Type", "application/json");
   ("Access-Control-Allow-Origin", "*")].

(** The [switch (endpoint)]: the URL, or [None] in the [default] case. *)
Definition githubUrl (d : RequestData) : option string :=
  let br := match branch d with Some b => b | None => "main" end in
  match endpoint d with
  | Some ep =>
      if (ep =? "repos")%string then
        Some ("https://api.github.com/users/" ++ tpl (owner d)
                ++ "/repos?per_page=100&sort=updated")
      else if (ep =? "repo")%string then
        Some ("https://api.github.com/repos/" ++ tpl (owner d) ++ "/"
                ++ tpl (repo d))
      else if (ep =? "content")%string then
        Some ("https://api.github.com/repos/" ++ tpl (owner d) ++ "/"
                ++ tpl (repo d) ++ "/contents/" ++ tpl (path d))
      else if (ep =? "raw")%string then
        Some ("https://raw.githubusercontent.com/" ++ tpl (owner d) ++ "/"
                ++ tpl (repo d) ++ "/" ++ br ++ "/" ++ tpl (path d))
      else if (ep =? "tree")%string then
        Some ("https://api.github.com/repos/" ++ tpl (owner d) ++ "/"
                ++ tpl (repo d) ++ "/git/trees/" ++ br ++ "?recursive=1")
      else None
  | None => None
  end.

(** The headers sent to GitHub: the [raw] case replaces the three
    default ones. *)
Definition githubHeaders (token : string) (d : RequestData) : Headers :=
  match endpoint d with
  | Some "raw" => [("Authorization", "token " ++ token)]
  | _ => [("Authorization", "Bearer " ++ token);
          ("Accept", "application/vnd.github.v3+json");
          ("User-Agent", "Trizly-Portfolio-System")]
  end.

Definition error_body (error : string) (more : list (string * JValue))
  : Body :=
  BJson (JObj (("error", JStr error) :: more)).

(** The part of the [try] block after GitHub has answered. *)
Definition relay (g : GithubResponse) : Outcome Response :=
  let data :=
    match nonempty (content_type g) with
    | Some ct => if includes ct "application/json" then gh_json g
                 else Fulfilled (JStr (gh_text g))
    | None => Fulfilled (JStr (gh_text g))
    end in
  match data with
  | Rejected e => Rejected e
  | Fulfilled d =>
      if negb (ok g) then
        match prop "message" d with
        | Rejected e => Rejected e
        | Fulfilled m =>
            new_Response
              (error_body "GitHub API request failed"
                 [("status", JNum (gh_status g));
                  ("message", match m with
                              | Some v => if truthy m then v
                                          else JStr "Unknown error"
                              | None => JStr "Unknown error"
                              end)])
              (gh_status g) cors_json
        end
      else
        Fulfilled
          {| status := 200;
             headers :=
               [("Content-Type",
                 match nonempty (content_type g) with
                 | Some ct => ct
                 | None => "application/json"
                 end);
                ("Access-Control-Allow-Origin", "*");
                ("Cache-Control", "public, max-age=300")];
             body := match d with
                     | JStr s => BText s
                     | v => BJson v
                     end |}
  end.

(** The [try] block: its outcome, and the calls made to GitHub. *)
Definition attempt (token : string) (request : Request)
    (fetch : string -> Headers -> Outcome GithubResponse)
  : Outcome Response * list Call :=
  match json request with
  | Rejected e => (Rejected e, [])
  | Fulfilled d =>
      match githubUrl d with
      | None =>
          (Fulfilled {| status := 400; headers := cors_json;
                        body := error_body "Invalid endpoint specified" [] |},
           [])
      | Some url =>
          let hs := githubHeaders token d in
          (match fetch url hs with
           | Rejected e => Rejected e
           | Fulfilled g => relay g
           end, [(url, hs)])
      end
  end.

(** [onRequest(context)]: the response, and the calls made to GitHub. *)
Definition onRequest (env : Env) (request : Request)
    (fetch : string -> Headers -> Outcome GithubResponse)
  : Response * list Call :=
  match nonempty (GITHUB_TOKEN env) with
  | None =>
      ({| status := 500; headers := cors_json;
          body := error_body "GitHub token not configured" [] |}, [])
  | Some token =>
      if (method request =? "OPTIONS")%string then
        ({| status := 200;
            headers :=
              [("Access-Control-Allow-Origin", "*");
               ("Access-Control-Allow-Methods", "GET, POST, OPTIONS");
               ("Access-Control-Allow-Headers", "Content-Type")];
            body := BNull |}, [])
      else
        match attempt token request fetch with
        | (Fulfilled r, calls) => (r, calls)
        | (Rejected e, calls) =>
            ({| status := 500; headers := cors_json;
                body := error_body "Internal server error"
                          [("message", JStr e)] |}, calls)
        end
  end.

End GithubProxy.

(** The body [githubRequest] posts, as the proxy reads it back:
    [JSON.stringify] leaves out the properties that are [undefined]. *)
Definition posted (rq : Request) : GithubProxy.RequestData :=
  {| GithubProxy.endpoint := Some (endpoint rq);
     GithubProxy.owner := Some (owner rq);
     GithubProxy.repo := repo rq;
     GithubProxy.path := path rq;
     GithubProxy.branch := branch rq |}.

(* ================================================================= *)
(** ** The view counter proxy: [onRequestPost] *)

Module Views.

Import Http.

Record Env : Type := { VIEW_API : option string }.

(** The answer of the view API: its status and [response.json()]. *)
Record ApiResponse : Type := {
  api_status : Z;
  api_json : Outcome JValue
}.

(** One call of [fetch(VIEW_API, { method: 'POST', headers, body })]. *)
Record Call : Type := {
  call_url : string;
  call_method : string;
  call_headers : Headers;
  call_body : Body
}.

(** [JSON.stringify({ visitorId })]: a property that is [undefined] is
    left out. *)
Definition visitor_body (visitorId : option JValue) : Body :=
  BJson (JObj match visitorId with
              | Some v => [("visitorId", v)]
              | None => []
              end).

Definition failure (error : string) : Response :=
  {| status := 500;
     headers := [("Content-Type", "application/json")];
     body := BJson (JObj [("error", JStr error)]) |}.

(** The [try] block, over [context.request.json()]. *)
Definition attempt (env : Env) (body : Outcome JValue)
    (fetch : Call -> Outcome ApiResponse)
  : Outcome Response * list Call :=
  match body with
  | Rejected e => (Rejected e, [])
  | Fulfilled v =>
      match prop "visitorId" v with
      | Rejected e => (Rejected e, [])
      | Fulfilled visitorId =>
          match nonempty (VIEW_API env) with
          | None => (Fulfilled (failure "API not configured"), [])
          | Some api =>
              let call :=
                {| call_url := api; call_method := "POST";
                   call_headers := [("Content-Type", "application/json")];
                   call_body := visitor_body visitorId |} in
              (match fetch call with
               | Rejected e => Rejected e
               | Fulfilled r =>
                   match api_json r with
                   | Rejected e => Rejected e
                   | Fulfilled data =>
                       new_Response (BJson data) (api_status r)
                         [("Content-Type", "application/json");
                          ("Access-Control-Allow-Origin", "*")]
                   end
               end, [call])
          end
      end
  end.

(** [onRequestPost(context)]: the response, and the calls made. *)
Definition onRequestPost (env : Env) (body : Outcome JValue)
    (fetch : Call -> Outcome ApiResponse) : Response * list Call :=
  match attempt env body fetch with
  | (Fulfilled r, calls) => (r, calls)
  | (Rejected _, calls) => (failure "Failed to fetch views", calls)
  end.

End Views.

(* ================================================================= *)
(** ** Vocabulary of the further statements *)

(** The endpoints the manager asks for. *)
Definition manager_endpoint (rq : Request) : Prop :=
  endpoint rq = "repos" \/ endpoint rq = "raw" \/ endpoint rq = "tree".

(** An entry made by [transformToPortfolio] from the descriptor [r]. *)
Definition entry_of (cfg : Config) (r : Repo.t) (p : Portfolio.t) : Prop :=
  exists c, p = portfolio_entry cfg r c.

(** A provider answering one fixed list of repositories and nothing
    else. *)
Definition listing (rs : list Repo.t)
  : list Request -> Request -> Outcome Payload :=
  fun _ rq =>
    if (endpoint rq =? "repos")%string then Fulfilled (PJson (JRepos rs))
    else Rejected "API error: 404".

(** The request [githubRequest] makes of the proxy: a [POST] whose body is
    the request. *)
Definition proxy_post (rq : Request) : GithubProxy.Request :=
  {| GithubProxy.method := "POST";
     GithubProxy.json := Fulfilled (posted rq) |}.

(** An environment with a token. *)
Definition proxy_env : GithubProxy.Env :=
  {| GithubProxy.GITHUB_TOKEN := Some "ghp_example" |}.

(** GitHub's answer for something that is not there. *)
Definition not_found : GithubProxy.GithubResponse :=
  {| GithubProxy.gh_status := 404;
     GithubProxy.content_type := Some "application/json; charset=utf-8";
     GithubProxy.gh_json :=
       Fulfilled (Http.JObj [("message", Http.JStr "Not Found")]);
     GithubProxy.gh_text := "" |}.

Definition github_not_found
  : string -> Http.Headers -> Outcome GithubProxy.GithubResponse :=
  fun _ _ => Fulfilled not_found.

(** GitHub's answer for a raw file. *)
Definition raw_file (text : string) : GithubProxy.GithubResponse :=
  {| GithubProxy.gh_status := 200;
     GithubProxy.content_type := Some "text/plain; charset=utf-8";
     GithubProxy.gh_json := Rejected "Unexpected token";
     GithubProxy.gh_text := text |}.

Definition github_raw_file (text : string)
  : string -> Http.Headers -> Outcome GithubProxy.GithubResponse :=
  fun _ _ => Fulfilled (raw_file text).

(** GitHub out of reach. *)
Definition github_unreachable
  : string -> Http.Headers -> Outcome GithubProxy.GithubResponse :=
  fun _ _ => Rejected "Network connection lost.".

(* ================================================================= *)
(** ** How the operations run *)

Section Runs.

Variable JSON_parse : string -> option Json.
Variable localeCompare : string -> string -> Z.
Variable cfg : Config.
Variable provider : list Request -> Request -> Outcome Payload.

Local Abbreviation transform := (transformToPortfolio JSON_parse cfg provider).
Local Abbreviation all_with := (getAllPortfolios_with localeCompare cfg provider).
Local Abbreviation all := (getAllPortfolios JSON_parse localeCompare cfg provider).
Local Abbreviation one := (getPortfolio JSON_parse localeCompare cfg provider).
Local Abbreviation content :=
  (getPortfolioContent JSON_parse localeCompare cfg provider).
Local Abbreviation cmp := (compare_portfolios localeCompare).

Lemma githubRequest_run ep rp pa br w :
  githubRequest cfg provider ep rp pa br w =
  (provider (requests w) (Build_Request ep (githubOwner cfg) rp pa br),
   sent (Build_Request ep (githubOwner cfg) rp pa br) w).
Proof. reflexivity. Qed.

Lemma fetchRepositories_run w :
  fetchRepositories cfg provider w =
  (Fulfilled (repos_of (provider (requests w) (repos_request cfg))),
   sent (repos_request cfg) w).
Proof.
  unfold fetchRepositories, try_catch, bind.
  rewrite githubRequest_run. fold (repos_request cfg).
  destruct (provider (requests w) (repos_request cfg)) as [[j|s]|e];
    reflexivity.
Qed.

Lemma fetchPortfolioConfig_run r w :
  fetchPortfolioConfig JSON_parse cfg provider r w =
  (Fulfilled (config_of JSON_parse
                (provider (requests w) (config_request cfg r))),
   sent (config_request cfg r) w).
Proof.
  unfold fetchPortfolioConfig, try_catch, bind.
  rewrite githubRequest_run. fold (raw_request cfg (Repo.name r)
    (config (expectedFiles cfg)) (branch_of r)). fold (config_request cfg r).
  destruct (provider (requests w) (config_request cfg r)) as [[j|s]|e];
    cbn; try reflexivity.
  destruct (JSON_parse s); reflexivity.
Qed.

Lemma fetchReadme_run r w :
  fetchReadme cfg provider r w =
  (Fulfilled (optional_of
     (provider (requests w)
        (raw_request cfg (Repo.name r) (readme (expectedFiles cfg))
           (branch_of r)))),
   sent (raw_request cfg (Repo.name r) (readme (expectedFiles cfg))
           (branch_of r)) w).
Proof.
  unfold fetchReadme, try_catch, bind. rewrite githubRequest_run.
  fold (raw_request cfg (Repo.name r) (readme (expectedFiles cfg))
          (branch_of r)).
  destruct (provider _ _); reflexivity.
Qed.

Lemma fetchRepoTree_run r w :
  fetchRepoTree cfg provider r w =
  (Fulfilled (optional_of
     (provider (requests w) (tree_request cfg (Repo.name r) (branch_of r)))),
   sent (tree_request cfg (Repo.name r) (branch_of r)) w).
Proof.
  unfold fetchRepoTree, try_catch, bind. rewrite githubRequest_run.
  fold (tree_request cfg (Repo.name r) (branch_of r)).
  destruct (provider _ _); reflexivity.
Qed.

Lemma transformToPortfolio_run r w :
  transform r w =
  (Fulfilled (portfolio_entry cfg r
                (config_of JSON_parse
                   (provider (requests w) (config_request cfg r)))),
   sent (config_request cfg r) w).
Proof.
  unfold transformToPortfolio, bind.
  rewrite fetchPortfolioConfig_run. reflexivity.
Qed.

(** The transforms of a refresh all fulfil; they leave the cache alone
    and send one [raw] request each. *)
Lemma Promise_all_transforms rs w :
  exists l extra,
    Promise_all (map transform rs) w =
    (Fulfilled l, {| cache := cache w; requests := requests w ++ extra |}) /\
    Forall (fun rq => is_list_fetch rq = false) extra /\
    List.length extra = List.length rs /\
    Forall (fun p => Portfolio.isDynamic p = true) l.
Proof.
  revert w. induction rs as [|r rs IH]; intro w.
  - exists [], []. cbn. rewrite app_nil_r. destruct w; auto.
  - cbn [map Promise_all]. rewrite transformToPortfolio_run.
    destruct (IH (sent (config_request cfg r) w))
      as (l & extra & Hrun & Hraw & Hlen & Hdyn).
    rewrite Hrun. cbn [join_outcome cache requests sent].
    eexists (_ :: l), (config_request cfg r :: extra).
    rewrite <- app_assoc. cbn [app]. repeat split.
    + constructor; [reflexivity | assumption].
    + cbn. now rewrite Hlen.
    + constructor; [reflexivity | assumption].
Qed.

(** A promise of the list that rejects in every state rejects the join. *)
Lemma Promise_all_rejected {A : Type} (ms : list (M A)) :
  (exists m, In m ms /\ forall w0, exists e w1, m w0 = (Rejected e, w1)) ->
  forall w, exists e w', Promise_all ms w = (Rejected e, w').
Proof.
  induction ms as [|m ms IH]; intros (m0 & Hin & Hrej) w.
  - destruct Hin.
  - cbn [Promise_all]. destruct (m w) as [o w1] eqn:Hm.
    destruct (Promise_all ms w1) as [os w2] eqn:Hall.
    destruct Hin as [<- | Hin].
    + destruct (Hrej w) as (e & w1' & Hr). rewrite Hm in Hr.
      injection Hr as -> _. cbn. eauto.
    + destruct (IH (ex_intro _ m0 (conj Hin Hrej)) w1) as (e & w' & Hr).
      rewrite Hall in Hr. injection Hr as -> _.
      destruct o; cbn; eauto.
Qed.

(** [Promise.all] leaves the cache alone when each promise does. *)
Lemma Promise_all_cache {A : Type} (ms : list (M A)) :
  (forall m w0, In m ms -> cache (snd (m w0)) = cache w0) ->
  forall w, cache (snd (Promise_all ms w)) = cache w.
Proof.
  induction ms as [|m ms IH]; intros Hc w; [reflexivity|].
  cbn [Promise_all]. destruct (m w) as [o w1] eqn:Hm.
  destruct (Promise_all ms w1) as [os w2] eqn:Hall. cbn [snd].
  transitivity (cache w1).
  - change w2 with (snd (os, w2)). rewrite <- Hall. apply IH.
    intros; apply Hc; now right.
  - change w1 with (snd (o, w1)). rewrite <- Hm. apply Hc; now left.
Qed.

(** The fast path. *)
Lemma getAllPortfolios_with_hit tr now w d :
  cache_hit cfg (cache w) now = Some d ->
  all_with tr now w = (Fulfilled d, w).
Proof.
  intro H. unfold getAllPortfolios_with, bind, get_cache. now rewrite H.
Qed.

Lemma getAllPortfolios_hit now w d :
  cache_hit cfg (cache w) now = Some d ->
  all now w = (Fulfilled d, w).
Proof. apply getAllPortfolios_with_hit. Qed.

(** A refresh. *)
Lemma getAllPortfolios_refresh now w :
  cache_hit cfg (cache w) now = None ->
  exists dyn extra,
    let l := JS.sort cmp (staticPortfolios cfg ++ dyn) in
    all now w =
    (Fulfilled l,
     {| cache := {| data := Some l; timestamp := Some now |};
        requests := requests w ++ repos_request cfg :: extra |}) /\
    Forall (fun rq => is_list_fetch rq = false) extra /\
    Forall (fun p => Portfolio.isDynamic p = true) dyn /\
    Promise_all
      (map transform
         (filterPortfolioRepos cfg
            (repos_of (provider (requests w) (repos_request cfg)))))
      (sent (repos_request cfg) w) =
    (Fulfilled dyn,
     {| cache := cache w;
        requests := requests w ++ repos_request cfg :: extra |}).
Proof.
  intro H. unfold getAllPortfolios, getAllPortfolios_with, bind, get_cache.
  rewrite H, fetchRepositories_run.
  destruct (Promise_all_transforms
              (filterPortfolioRepos cfg
                 (repos_of (provider (requests w) (repos_request cfg))))
              (sent (repos_request cfg) w))
    as (dyn & extra & Hrun & Hraw & _ & Hdyn).
  exists dyn, extra. cbn zeta. rewrite Hrun.
  cbn [sent cache requests set_cache ret]. rewrite <- app_assoc.
  repeat split; assumption.
Qed.

(** [getAllPortfolios] always fulfils. *)
Lemma getAllPortfolios_fulfils now w :
  exists l w', all now w = (Fulfilled l, w').
Proof.
  destruct (cache_hit cfg (cache w) now) as [d|] eqn:H.
  - exists d, w. now apply getAllPortfolios_with_hit.
  - destruct (getAllPortfolios_refresh now w H) as (dyn & extra & Hrun & _).
    eauto.
Qed.

End Runs.

(* ================================================================= *)
(** ** The sort *)

Section SortFacts.

Context {A : Type} (comparefn : A -> A -> Z).

Local Abbreviation le := (below comparefn).

Lemma sort_insert_perm x l :
  Permutation (x :: l) (JS.sort_insert comparefn x l).
Proof.
  induction l as [|y l IH]; cbn; [reflexivity|].
  destruct (comparefn x y <=? 0)%Z; [reflexivity|].
  rewrite perm_swap. now constructor.
Qed.

Lemma sort_perm l : Permutation l (JS.sort comparefn l).
Proof.
  induction l as [|x l IH]; cbn; [constructor|].
  rewrite <- sort_insert_perm. now constructor.
Qed.

Hypothesis le_total : forall x y, le x y \/ le y x.
Hypothesis le_trans : forall x y z, le x y -> le y z -> le x z.

Lemma sort_insert_sorted x l :
  StronglySorted le l -> StronglySorted le (JS.sort_insert comparefn x l).
Proof.
  induction 1 as [|y l Hs IH Hall]; cbn.
  - repeat constructor.
  - destruct (Z.leb_spec (comparefn x y) 0) as [Hxy|Hxy].
    + constructor; [now constructor|].
      constructor; [exact Hxy|].
      eapply Forall_impl; [|exact Hall]. intros z Hyz.
      now apply le_trans with y.
    + constructor; [exact IH|].
      eapply Permutation_Forall; [apply sort_insert_perm|].
      constructor; [|exact Hall].
      destruct (le_total x y) as [H|H]; [unfold below in H; lia | exact H].
Qed.

Lemma sort_sorted l : StronglySorted le (JS.sort comparefn l).
Proof.
  induction l as [|x l IH]; cbn; [constructor|].
  now apply sort_insert_sorted.
Qed.

End SortFacts.

Lemma StronglySorted_apart {A : Type} (R : A -> A -> Prop) l :
  StronglySorted R l ->
  forall l1 a l2 b l3, l = l1 ++ a :: l2 ++ b :: l3 -> R a b.
Proof.
  induction 1 as [|x l Hs IH Hall]; intros l1 a l2 b l3 E.
  - destruct l1; discriminate.
  - destruct l1 as [|y l1]; cbn in E; injection E as -> ->.
    + rewrite Forall_forall in Hall. apply Hall.
      apply in_or_app; right; now left.
    + eapply IH; reflexivity.
Qed.

Section Order.

Variable localeCompare : string -> string -> Z.
Hypothesis Hcons : consistent localeCompare.

Local Abbreviation cmp := (compare_portfolios localeCompare).

Lemma localeCompare_total a b :
  (localeCompare a b <= 0)%Z \/ (localeCompare b a <= 0)%Z.
Proof.
  destruct Hcons as [Hanti _]. specialize (Hanti a b).
  destruct (Z.sgn_spec (localeCompare a b)) as [[? ?]|[[? ?]|[? ?]]];
    destruct (Z.sgn_spec (localeCompare b a)) as [[? ?]|[[? ?]|[? ?]]]; lia.
Qed.

Lemma compare_portfolios_total a b :
  (cmp a b <= 0)%Z \/ (cmp b a <= 0)%Z.
Proof.
  unfold compare_portfolios.
  destruct (Portfolio.featured a), (Portfolio.featured b); cbn;
    try apply localeCompare_total; lia.
Qed.

Lemma compare_portfolios_trans a b c :
  (cmp a b <= 0)%Z -> (cmp b c <= 0)%Z -> (cmp a c <= 0)%Z.
Proof.
  destruct Hcons as [_ Htrans]. unfold compare_portfolios.
  destruct (Portfolio.featured a), (Portfolio.featured b),
    (Portfolio.featured c); cbn; try lia; apply Htrans.
Qed.

Lemma compare_portfolios_in_order a b :
  (cmp a b <= 0)%Z -> in_order localeCompare a b.
Proof.
  unfold compare_portfolios, in_order.
  destruct (Portfolio.featured a), (Portfolio.featured b); cbn;
    intro H; split; intros; try congruence; try lia.
Qed.

(** What the sort of [getAllPortfolios] returns is in order. *)
Lemma sort_featured_then_name l :
  featured_then_name localeCompare (JS.sort cmp l).
Proof.
  intros l1 a l2 b l3 E. apply compare_portfolios_in_order.
  eapply (StronglySorted_apart (below cmp)); [|exact E].
  apply sort_sorted.
  - exact compare_portfolios_total.
  - exact compare_portfolios_trans.
Qed.

End Order.

Section PublicRuns.

Variable JSON_parse : string -> option Json.
Variable localeCompare : string -> string -> Z.
Variable cfg : Config.
Variable provider : list Request -> Request -> Outcome Payload.

Local Abbreviation all := (getAllPortfolios JSON_parse localeCompare cfg provider).
Local Abbreviation one := (getPortfolio JSON_parse localeCompare cfg provider).
Local Abbreviation content :=
  (getPortfolioContent JSON_parse localeCompare cfg provider).

Lemma getPortfolio_run now slug w l w' :
  all now w = (Fulfilled l, w') ->
  one now slug w = (Fulfilled (find (has_slug slug) l), w').
Proof.
  intro H. unfold getPortfolio, bind. now rewrite H.
Qed.

Lemma getPortfolioContent_absent now slug w w' :
  one now slug w = (Fulfilled None, w') ->
  content now slug w = (Fulfilled None, w').
Proof.
  intro H. unfold getPortfolioContent, bind. now rewrite H.
Qed.

Lemma getPortfolioContent_static now slug w w' p :
  one now slug w = (Fulfilled (Some p), w') ->
  Portfolio.isDynamic p = false ->
  content now slug w = (Fulfilled None, w').
Proof.
  intros H Hs. unfold getPortfolioContent, bind. now rewrite H, Hs.
Qed.

Lemma getPortfolioContent_dynamic now slug w w' p :
  one now slug w = (Fulfilled (Some p), w') ->
  Portfolio.isDynamic p = true ->
  let br := JS.or_string (Portfolio.defaultBranch p) "main" in
  let rq1 := raw_request cfg slug (readme (expectedFiles cfg)) br in
  let rq2 := tree_request cfg slug br in
  content now slug w =
  (Fulfilled (Some {| entry := p;
                      content_readme :=
                        optional_of (provider (requests w') rq1);
                      content_tree :=
                        optional_of (provider (requests w' ++ [rq1]) rq2) |}),
   {| cache := cache w'; requests := requests w' ++ [rq1; rq2] |}).
Proof.
  intros H Hd br rq1 rq2. unfold getPortfolioContent, bind.
  rewrite H, Hd. cbn [negb]. unfold Promise_all2.
  rewrite fetchReadme_run, fetchRepoTree_run. cbn.
  unfold sent. cbn. now rewrite <- app_assoc.
Qed.

End PublicRuns.

(* ================================================================= *)
(** ** The pattern of [config.js] *)

Lemma map_units_length f s : String.length (JS.map_units f s) = String.length s.
Proof. induction s as [|c s IH]; cbn; congruence. Qed.

Lemma substring_prefix pre rest :
  substring 0 (String.length pre) (pre ++ rest) = pre.
Proof.
  induction pre as [|c pre IH]; cbn.
  - now destruct rest.
  - now rewrite IH.
Qed.

Lemma substring_whole s : substring 0 (String.length s) s = s.
Proof. induction s as [|c s IH]; cbn; congruence. Qed.

Lemma substring_suffix pre rest :
  substring (String.length pre)
    (String.length (pre ++ rest) - String.length pre) (pre ++ rest) = rest.
Proof.
  induction pre as [|c pre IH]; cbn.
  - rewrite Nat.sub_0_r. apply substring_whole.
  - exact IH.
Qed.

Lemma substring_split n s :
  s = (substring 0 n s ++ substring n (String.length s - n) s)%string.
Proof.
  revert s. induction n as [|n IH]; intro s.
  - cbn. rewrite Nat.sub_0_r.
    replace (substring 0 0 s) with "" by now destruct s.
    cbn. now rewrite substring_whole.
  - destruct s as [|c s]; cbn; [reflexivity|].
    now rewrite <- IH.
Qed.

Lemma portfolio_pattern_matches name rest :
  portfolio_pattern name = Some (Some rest) <-> matches_portfolio name rest.
Proof.
  unfold portfolio_pattern, matches_portfolio. split.
  - destruct (String.eqb_spec (JS.toLowerCase (substring 0 9 name)) "portfolio")
      as [Hp|]; [|discriminate].
    destruct (String.eqb_spec (substring 9 (String.length name - 9) name) "")
      as [|Hne]; [discriminate|].
    cbn [negb andb].
    destruct (JS.all_units _ _) eqn:Hall; [|discriminate].
    intro E. injection E as <-.
    exists (substring 0 9 name). repeat split; auto using substring_split.
  - intros (pre & -> & Hp & Hne & Hall).
    assert (Hlen : String.length pre = 9).
    { unfold JS.toLowerCase in Hp.
      rewrite <- (map_units_length JS.lower_unit), Hp. reflexivity. }
    rewrite <- Hlen, substring_prefix, substring_suffix, Hp, Hall.
    rewrite String.eqb_refl.
    destruct (String.eqb_spec rest ""); [contradiction | reflexivity].
Qed.

Lemma portfolio_pattern_shape name :
  portfolio_pattern name = None \/
  exists rest, portfolio_pattern name = Some (Some rest).
Proof.
  unfold portfolio_pattern.
  destruct (_ && _ && _)%bool; eauto.
Qed.

Lemma upper_unit_code c :
  ((97 <= nat_of_ascii c <= 122)%nat ->
   nat_of_ascii (JS.upper_unit c) = (nat_of_ascii c - 32)%nat) /\
  (~ (97 <= nat_of_ascii c <= 122)%nat -> JS.upper_unit c = c).
Proof.
  unfold JS.upper_unit, JS.is_lower.
  destruct (Nat.leb_spec 97 (nat_of_ascii c));
    destruct (Nat.leb_spec (nat_of_ascii c) 122); cbn [andb];
    split; intro Hcode; try lia; try reflexivity.
  apply nat_ascii_embedding. lia.
Qed.

(** C7.  [extractPortfolioName], under the pattern [/^portfolio(.+)$/i] of
    [config.js], is a function of the repository name alone.  When the
    name is the nine letters of [portfolio] in either case followed by a
    non-empty rest without line terminators, the result is that rest with
    its first code unit uppercased: a letter [a]..[z] (codes 97 to 122)
    becomes the letter 32 codes below, and any other first code unit
    stays.  When the name has no such reading, the result is the name
    itself.  [portfolioBloxy], [portfoliobloxy] and [PORTFOLIObloxy] give
    [Bloxy]; [random-repo], the bare [portfolio], a name that only
    contains the word, and a name whose rest holds a line feed or a
    carriage return come back unchanged. *)
Theorem extractPortfolioName_spec : forall name : string,
  (forall rest, matches_portfolio name rest ->
     exists c tl c', rest = String c tl /\
       extractPortfolioName PORTFOLIO_CONFIG name = String c' tl /\
       ((97 <= nat_of_ascii c <= 122)%nat ->
        nat_of_ascii c' = (nat_of_ascii c - 32)%nat) /\
       (~ (97 <= nat_of_ascii c <= 122)%nat -> c' = c)) /\
  ((forall rest, ~ matches_portfolio name rest) ->
     extractPortfolioName PORTFOLIO_CONFIG name = name) /\
  extractPortfolioName PORTFOLIO_CONFIG "portfolioBloxy" = "Bloxy" /\
  extractPortfolioName PORTFOLIO_CONFIG "random-repo" = "random-repo" /\
  extractPortfolioName PORTFOLIO_CONFIG "portfoliobloxy" = "Bloxy" /\
  extractPortfolioName PORTFOLIO_CONFIG "PORTFOLIObloxy" = "Bloxy" /\
  extractPortfolioName PORTFOLIO_CONFIG "pOrTfOlIo-zed9" = "-zed9" /\
  extractPortfolioName PORTFOLIO_CONFIG "portfolio" = "portfolio" /\
  extractPortfolioName PORTFOLIO_CONFIG "my-portfolioBloxy"
    = "my-portfolioBloxy" /\
  extractPortfolioName PORTFOLIO_CONFIG
    ("portfolio" ++ String "010" "x")%string
    = ("portfolio" ++ String "010" "x")%string /\
  extractPortfolioName PORTFOLIO_CONFIG
    ("portfoliox" ++ String "013" "")%string
    = ("portfoliox" ++ String "013" "")%string.
Proof.
  intro name. repeat split; try reflexivity.
  - intros rest Hm. pose proof Hm as (pre & _ & _ & Hne & _).
    apply portfolio_pattern_matches in Hm.
    unfold extractPortfolioName. cbn [repoPattern PORTFOLIO_CONFIG].
    rewrite Hm. destruct rest as [|c tl]; [contradiction|].
    exists c, tl, (JS.upper_unit c).
    split; [reflexivity|]. split; [reflexivity|].
    apply upper_unit_code.
  - intro Hno. unfold extractPortfolioName. cbn [repoPattern PORTFOLIO_CONFIG].
    destruct (portfolio_pattern_shape name) as [-> | (rest & Hm)];
      [reflexivity|].
    apply portfolio_pattern_matches in Hm. now apply Hno in Hm.
Qed.

Lemma extractPortfolioName_spec_witness :
  matches_portfolio "PORTFOLIObloxy" "bloxy" /\
  extractPortfolioName PORTFOLIO_CONFIG "PORTFOLIObloxy" = "Bloxy".
Proof.
  assert (H : matches_portfolio "PORTFOLIObloxy" "bloxy").
  { exists "PORTFOLIO". repeat split; try reflexivity. discriminate. }
  split; [exact H|].
  destruct (proj1 (extractPortfolioName_spec "PORTFOLIObloxy") "bloxy" H)
    as (c & tl & c' & E & Hrun & Hup & _).
  injection E as <- <-. rewrite Hrun. f_equal.
  rewrite <- (ascii_nat_embedding c'), Hup; [reflexivity | cbn; lia].
Defined.

(* ================================================================= *)
(** ** Lookup by slug *)

Lemma find_first {A : Type} (f : A -> bool) l p :
  find f l = Some p ->
  exists l1 l2, l = l1 ++ p :: l2 /\ f p = true /\
                forall q, In q l1 -> f q = false.
Proof.
  induction l as [|x l IH]; cbn; [discriminate|].
  destruct (f x) eqn:Hx.
  - intro E. injection E as ->. exists [], l. repeat split; auto.
    intros q [].
  - intro E. destruct (IH E) as (l1 & l2 & -> & Hp & Hl1).
    exists (x :: l1), l2. repeat split; auto.
    intros q [<- | Hq]; auto.
Qed.

Lemma has_slug_true slug p : has_slug slug p = true <-> Portfolio.slug p = slug.
Proof. unfold has_slug. apply String.eqb_eq. Qed.

Lemma has_slug_false slug p : has_slug slug p = false <-> Portfolio.slug p <> slug.
Proof. unfold has_slug. apply String.eqb_neq. Qed.

(** C9.  [getPortfolio(slug)] never rejects.  It fulfils with the first
    entry of the sequence [getAllPortfolios()] gives whose slug is the
    argument: that entry has the slug and no entry before it has.  When no
    entry of the sequence has the slug, it fulfils with [undefined]. *)
Theorem getPortfolio_first_match :
  forall JSON_parse localeCompare cfg provider now slug w,
  exists l w',
    getAllPortfolios JSON_parse localeCompare cfg provider now w =
      (Fulfilled l, w') /\
    ((exists p l1 l2,
        getPortfolio JSON_parse localeCompare cfg provider now slug w =
          (Fulfilled (Some p), w') /\
        l = l1 ++ p :: l2 /\
        Portfolio.slug p = slug /\
        forall q, In q l1 -> Portfolio.slug q <> slug)
     \/
     (getPortfolio JSON_parse localeCompare cfg provider now slug w =
        (Fulfilled None, w') /\
      forall q, In q l -> Portfolio.slug q <> slug)).
Proof.
  intros.
  destruct (getAllPortfolios_fulfils JSON_parse localeCompare cfg provider
              now w) as (l & w' & Hall).
  exists l, w'. split; [exact Hall|].
  rewrite (getPortfolio_run _ _ _ _ _ _ _ _ _ Hall).
  destruct (find (has_slug slug) l) as [p|] eqn:Hf.
  - left. destruct (find_first _ _ _ Hf) as (l1 & l2 & -> & Hp & Hl1).
    exists p, l1, l2. repeat split.
    + now apply has_slug_true.
    + intros q Hq. now apply has_slug_false, Hl1.
  - right. split; [reflexivity|].
    intros q Hq. apply has_slug_false. exact (find_none _ _ Hf q Hq).
Qed.

(* ================================================================= *)
(** ** Repository content *)

(** C8.  [getPortfolioContent(slug)] never rejects.  When [getPortfolio]
    finds no entry, or finds one that is not dynamic, it fulfils with
    [null] and sends nothing more.  When the entry found is dynamic it
    fulfils with the entry together with [readme] and [tree]: each is what
    the provider answered, and [null] when the provider's answer was a
    failure.  With the static entry [trizl] in the configuration, the slug
    is in the sequence of [getAllPortfolios] and its content is [null]. *)
Theorem getPortfolioContent_spec :
  (forall JSON_parse localeCompare cfg provider now slug w,
   exists o w1,
     getPortfolio JSON_parse localeCompare cfg provider now slug w =
       (Fulfilled o, w1) /\
     match o with
     | None =>
         getPortfolioContent JSON_parse localeCompare cfg provider now slug w
         = (Fulfilled None, w1)
     | Some p =>
         if Portfolio.isDynamic p then
           let br := JS.or_string (Portfolio.defaultBranch p) "main" in
           let rq1 := raw_request cfg slug (readme (expectedFiles cfg)) br in
           let rq2 := tree_request cfg slug br in
           exists r t w2,
             getPortfolioContent JSON_parse localeCompare cfg provider
               now slug w =
             (Fulfilled (Some {| entry := p; content_readme := r;
                                 content_tree := t |}), w2) /\
             (forall d, provider (requests w1) rq1 = Fulfilled d ->
                        r = Some d) /\
             (forall e, provider (requests w1) rq1 = Rejected e ->
                        r = None) /\
             (forall d, provider (requests w1 ++ [rq1]) rq2 = Fulfilled d ->
                        t = Some d) /\
             (forall e, provider (requests w1 ++ [rq1]) rq2 = Rejected e ->
                        t = None)
         else
           getPortfolioContent JSON_parse localeCompare cfg provider
             now slug w = (Fulfilled None, w1)
     end) /\
  (exists l w',
     getAllPortfolios never_parses codeUnitCompare demo_config demo_provider
       1000 new_world = (Fulfilled l, w') /\
     In "trizl" (map Portfolio.slug l) /\
     getPortfolioContent never_parses codeUnitCompare demo_config
       demo_provider 1000 "trizl" new_world = (Fulfilled None, w')).
Proof.
  split.
  - intros.
    destruct (getAllPortfolios_fulfils JSON_parse localeCompare cfg provider
                now w) as (l & w1 & Hall).
    pose proof (getPortfolio_run _ _ _ _ _ slug _ _ _ Hall) as Hone.
    exists (find (has_slug slug) l), w1. split; [exact Hone|].
    destruct (find (has_slug slug) l) as [p|].
    + destruct (Portfolio.isDynamic p) eqn:Hd.
      * intros br rq1 rq2.
        pose proof (getPortfolioContent_dynamic _ _ _ _ _ _ _ _ _ Hone Hd)
          as Hrun. cbn zeta in Hrun. fold br rq1 rq2 in Hrun.
        eexists _, _, _. split; [exact Hrun|].
        repeat split; intros x Hx; rewrite Hx; reflexivity.
      * now apply getPortfolioContent_static with p.
    + now apply getPortfolioContent_absent.
  - eexists _, _. split; [vm_compute; reflexivity|].
    split; vm_compute; auto.
Qed.

Lemma lower_unit_moves c : JS.is_upper c = true -> JS.lower_unit c <> c.
Proof.
  unfold JS.lower_unit. intro H. rewrite H. intro E.
  apply (f_equal nat_of_ascii) in E.
  unfold JS.is_upper in H. apply andb_true_iff in H as [_ H].
  apply Nat.leb_le in H.
  rewrite nat_ascii_embedding in E; lia.
Qed.

Lemma toLowerCase_moves s :
  JS.any_unit JS.is_upper s = true -> JS.toLowerCase s <> s.
Proof.
  unfold JS.toLowerCase.
  induction s as [|c s IH]; cbn; [discriminate|].
  intros H E. injection E as Ec Es.
  apply orb_true_iff in H as [H|H].
  - now apply (lower_unit_moves c).
  - now apply IH.
Qed.

(** C10.  When [getPortfolio] finds a dynamic entry for [slug], the two
    requests [getPortfolioContent] sends, the [raw] one for the README and
    the [tree] one, carry the slug (which is the entry's own) as their
    repository name.  The slug [transformToPortfolio] gives an entry is the
    repository name in lower case, so for a name with an upper-case letter
    it is not the name.  For the repository [portfolioBear] the two
    requests are for [portfoliobear]. *)
Theorem getPortfolioContent_requests_the_slug :
  (forall JSON_parse localeCompare cfg provider now slug w p w1,
     getPortfolio JSON_parse localeCompare cfg provider now slug w =
       (Fulfilled (Some p), w1) ->
     Portfolio.isDynamic p = true ->
     Portfolio.slug p = slug /\
     exists c br,
       getPortfolioContent JSON_parse localeCompare cfg provider now slug w =
       (Fulfilled (Some c),
        {| cache := cache w1;
           requests := requests w1 ++
             [ {| endpoint := "raw"; owner := githubOwner cfg;
                  repo := Some slug;
                  path := Some (readme (expectedFiles cfg));
                  branch := Some br |};
               {| endpoint := "tree"; owner := githubOwner cfg;
                  repo := Some slug; path := None;
                  branch := Some br |} ] |})) /\
  (forall JSON_parse cfg provider r w,
     JS.any_unit JS.is_upper (Repo.name r) = true ->
     exists p w',
       transformToPortfolio JSON_parse cfg provider r w = (Fulfilled p, w') /\
       Portfolio.slug p = JS.toLowerCase (Repo.name r) /\
       Portfolio.slug p <> Repo.name r) /\
  (In (repo_named "portfolioBear")
      (repos_of (demo_provider [] (repos_request demo_config))) /\
   map repo
     (requests (snd (getPortfolioContent never_parses codeUnitCompare
                       demo_config demo_provider 1000 "portfoliobear"
                       new_world))) =
   [None; Some "portfolioApple"; Some "portfolioBear";
    Some "portfoliobear"; Some "portfoliobear"]).
Proof.
  repeat split.
  - destruct (getAllPortfolios_fulfils JSON_parse localeCompare cfg provider
                now w) as (l & w' & Hall).
    rewrite (getPortfolio_run _ _ _ _ _ slug _ _ _ Hall) in H.
    injection H as Hf _. apply find_some in Hf as [_ Hf].
    now apply has_slug_true.
  - pose proof (getPortfolioContent_dynamic _ _ _ _ _ _ _ _ _ H H0) as Hrun.
    cbn zeta in Hrun. eexists _, _. exact Hrun.
  - intros JSON_parse cfg provider r w Hup.
    rewrite transformToPortfolio_run. eexists _, _.
    split; [reflexivity|]. split; [reflexivity|].
    cbn [Portfolio.slug portfolio_entry]. now apply toLowerCase_moves.
  - vm_compute. auto.
Qed.

Lemma getPortfolioContent_requests_the_slug_witness :
  Portfolio.slug
    (portfolio_entry demo_config (repo_named "portfolioBear")
       (Some (JConfig (RepoConfig.mk None None None (Some true)))))
  = "portfoliobear" /\
  exists c br,
    getPortfolioContent never_parses codeUnitCompare demo_config
      demo_provider 1000 "portfoliobear" new_world =
    (Fulfilled (Some c),
     {| cache := cache (snd (getPortfolio never_parses codeUnitCompare
                               demo_config demo_provider 1000
                               "portfoliobear" new_world));
        requests :=
          requests (snd (getPortfolio never_parses codeUnitCompare
                           demo_config demo_provider 1000
                           "portfoliobear" new_world)) ++
          [ {| endpoint := "raw"; owner := githubOwner demo_config;
               repo := Some "portfoliobear";
               path := Some (readme (expectedFiles demo_config));
               branch := Some br |};
            {| endpoint := "tree"; owner := githubOwner demo_config;
               repo := Some "portfoliobear"; path := None;
               branch := Some br |} ] |}).
Proof.
  apply (proj1 getPortfolioContent_requests_the_slug
           never_parses codeUnitCompare demo_config demo_provider 1000%Z
           "portfoliobear" new_world).
  - vm_compute. reflexivity.
  - reflexivity.
Defined.

(* ================================================================= *)
(** ** The transformer *)

(** C4.  When the request for a repository's [portfolio.json] is rejected,
    or is answered by a text [JSON.parse] throws on,
    [transformToPortfolio] still fulfils, with one dynamic entry made from
    the descriptor: the name is the extractor's, the slug the repository
    name in lower case, the description the descriptor's when it has a
    non-empty one and the placeholder otherwise, the thumbnail the URL made
    of owner, repository, branch and file name, and [featured] is
    [false]. *)
Theorem transformToPortfolio_defaults :
  forall JSON_parse cfg provider r w,
  ((exists e, provider (requests w) (config_request cfg r) = Rejected e) \/
   (exists s, provider (requests w) (config_request cfg r)
                = Fulfilled (PText s) /\ JSON_parse s = None)) ->
  exists p,
    transformToPortfolio JSON_parse cfg provider r w =
      (Fulfilled p, sent (config_request cfg r) w) /\
    Portfolio.name p = extractPortfolioName cfg (Repo.name r) /\
    Portfolio.slug p = JS.toLowerCase (Repo.name r) /\
    (forall d, Repo.description r = Some d -> d <> "" ->
               Portfolio.description p = d) /\
    (Repo.description r = None \/ Repo.description r = Some "" ->
     Portfolio.description p = "No description available") /\
    Portfolio.thumbnail p =
      Some ("https://raw.githubusercontent.com/" ++ githubOwner cfg ++ "/"
              ++ Repo.name r ++ "/"
              ++ JS.or_string (Repo.default_branch r) "main" ++ "/"
              ++ thumbnail (expectedFiles cfg))%string /\
    Portfolio.featured p = false /\
    Portfolio.isDynamic p = true.
Proof.
  intros JSON_parse cfg provider r w Hfail.
  rewrite transformToPortfolio_run. eexists. split; [reflexivity|].
  assert (Hc : config_of JSON_parse
                 (provider (requests w) (config_request cfg r)) = None).
  { destruct Hfail as [(e & ->) | (s & -> & Hs)]; [reflexivity | exact Hs]. }
  rewrite Hc. cbn. repeat split.
  - intros d -> Hd. cbn. now destruct (String.eqb_spec d "").
  - intros [-> | ->]; reflexivity.
Qed.

Lemma transformToPortfolio_defaults_witness :
  exists p,
    transformToPortfolio never_parses PORTFOLIO_CONFIG offline
      (repo_named "portfolioBloxy") new_world =
      (Fulfilled p,
       sent (config_request PORTFOLIO_CONFIG (repo_named "portfolioBloxy"))
         new_world) /\
    Portfolio.name p = "Bloxy" /\
    Portfolio.slug p = "portfoliobloxy" /\
    Portfolio.description p = "No description available" /\
    Portfolio.thumbnail p =
      Some "https://raw.githubusercontent.com/Trizly-xyz/portfolioBloxy/main/thumbnail.png" /\
    Portfolio.featured p = false.
Proof.
  destruct (transformToPortfolio_defaults never_parses PORTFOLIO_CONFIG
              offline (repo_named "portfolioBloxy") new_world)
    as (p & Hrun & Hn & Hs & _ & Hd & Ht & Hf & _).
  - left. exists "Failed to fetch". reflexivity.
  - exists p. repeat split; try assumption.
    apply Hd. now left.
Defined.

(* ================================================================= *)
(** ** The cache *)

Lemma filter_none {A : Type} (f : A -> bool) l :
  Forall (fun x => f x = false) l -> filter f l = [].
Proof.
  induction 1 as [|x l Hx _ IH]; cbn; [reflexivity|]. now rewrite Hx.
Qed.

Lemma list_fetches_refresh cfg w c extra :
  Forall (fun rq => is_list_fetch rq = false) extra ->
  list_fetches {| cache := c;
                  requests := requests w ++ repos_request cfg :: extra |}
  = S (list_fetches w).
Proof.
  intro H. unfold list_fetches. cbn [requests].
  rewrite filter_app, length_app. cbn [filter].
  change (is_list_fetch (repos_request cfg)) with true.
  rewrite (filter_none _ _ H). cbn. lia.
Qed.

(** The fast path, for a record whose timestamp is not [0]. *)
Lemma getAllPortfolios_cached :
  forall JSON_parse localeCompare cfg provider now w d t,
  cache w = {| data := Some d; timestamp := Some t |} ->
  t <> 0%Z ->
  (now - t < cacheDuration cfg)%Z ->
  getAllPortfolios JSON_parse localeCompare cfg provider now w =
    (Fulfilled d, w).
Proof.
  intros until t. intros Hc Ht Hnow.
  apply getAllPortfolios_with_hit. unfold cache_hit. rewrite Hc. cbn.
  destruct (Z.eqb_spec t 0); [contradiction|].
  destruct (Z.ltb_spec (now - t) (cacheDuration cfg)); [reflexivity | lia].
Qed.

(** C6.  In a refresh where the request for the repository list is
    rejected, or answered by anything but a list, [getAllPortfolios]
    fulfils: with the static entries of the configuration, sorted, and
    nothing else; it caches that sequence under [now], and sends no other
    request. *)
Theorem getAllPortfolios_provider_failure :
  forall JSON_parse localeCompare cfg provider now w,
  cache_hit cfg (cache w) now = None ->
  (forall rs, provider (requests w) (repos_request cfg)
                <> Fulfilled (PJson (JRepos rs))) ->
  exists l,
    getAllPortfolios JSON_parse localeCompare cfg provider now w =
      (Fulfilled l,
       {| cache := {| data := Some l; timestamp := Some now |};
          requests := requests w ++ [repos_request cfg] |}) /\
    l = JS.sort (compare_portfolios localeCompare) (staticPortfolios cfg) /\
    Permutation (staticPortfolios cfg) l.
Proof.
  intros JSON_parse localeCompare cfg provider now w Hmiss Hfail.
  assert (Hr : repos_of (provider (requests w) (repos_request cfg)) = []).
  { destruct (provider (requests w) (repos_request cfg)) as [[[rs| | |]|]|];
      try reflexivity. now destruct (Hfail rs). }
  eexists. split; [|split; [reflexivity | apply sort_perm]].
  unfold getAllPortfolios, getAllPortfolios_with, bind, get_cache.
  rewrite Hmiss, fetchRepositories_run, Hr. cbn.
  now rewrite app_nil_r.
Qed.

Lemma getAllPortfolios_provider_failure_witness :
  exists l,
    getAllPortfolios never_parses codeUnitCompare PORTFOLIO_CONFIG offline
      1000 new_world =
      (Fulfilled l,
       {| cache := {| data := Some l; timestamp := Some 1000%Z |};
          requests := [repos_request PORTFOLIO_CONFIG] |}) /\
    l = JS.sort (compare_portfolios codeUnitCompare)
          (staticPortfolios PORTFOLIO_CONFIG) /\
    Permutation (staticPortfolios PORTFOLIO_CONFIG) l.
Proof.
  apply (getAllPortfolios_provider_failure never_parses codeUnitCompare
           PORTFOLIO_CONFIG offline 1000%Z new_world).
  - reflexivity.
  - intros rs. discriminate.
Defined.

(** The entries the transforms of a refresh give, one by one: each is
    made from its descriptor and from the answer to its own request for
    [portfolio.json], sent after the requests of the descriptors before
    it. *)
Lemma Promise_all_transforms_indexed JSON_parse cfg provider rs :
  forall w, exists dyn,
    Promise_all (map (transformToPortfolio JSON_parse cfg provider) rs) w =
      (Fulfilled dyn,
       {| cache := cache w;
          requests := requests w ++ map (config_request cfg) rs |}) /\
    List.length dyn = List.length rs /\
    forall i r, nth_error rs i = Some r ->
      nth_error dyn i =
        Some (portfolio_entry cfg r
                (config_of JSON_parse
                   (provider
                      (requests w ++ map (config_request cfg) (firstn i rs))
                      (config_request cfg r)))).
Proof.
  induction rs as [|r0 rs IH]; intro w.
  - exists []. cbn. rewrite app_nil_r. destruct w.
    repeat split. intros [|i] r; discriminate.
  - cbn [map Promise_all]. rewrite transformToPortfolio_run.
    destruct (IH (sent (config_request cfg r0) w)) as (dyn & Hrun & Hlen & Hnth).
    rewrite Hrun. cbn [join_outcome cache requests sent].
    eexists (_ :: dyn). rewrite <- app_assoc. split; [reflexivity|].
    split; [cbn; now rewrite Hlen|].
    intros [|i] r Hr.
    + cbn in Hr. injection Hr as <-. cbn. now rewrite app_nil_r.
    + cbn in Hr. cbn [nth_error firstn map].
      rewrite (Hnth i r Hr). cbn [requests sent].
      now rewrite <- app_assoc.
Qed.

(** C2.  When the cache holds a record of time [t] and
    [now - t >= cacheDuration], [getAllPortfolios] at [now] asks the
    provider for the repository list once and fulfils with a new
    sequence, whatever the record held: the static entries and, for each
    matching repository of the list just fetched, the entry made from its
    descriptor and from the answer to its request for [portfolio.json],
    sorted.  The cache record it leaves is that sequence with [now] as its
    timestamp. *)
Theorem getAllPortfolios_refreshes_stale_cache :
  forall JSON_parse localeCompare cfg provider now w d t,
  cache w = {| data := Some d; timestamp := Some t |} ->
  (now - t >= cacheDuration cfg)%Z ->
  let rs := filterPortfolioRepos cfg
              (repos_of (provider (requests w) (repos_request cfg))) in
  exists dyn l w',
    getAllPortfolios JSON_parse localeCompare cfg provider now w =
      (Fulfilled l, w') /\
    List.length dyn = List.length rs /\
    (forall i r, nth_error rs i = Some r ->
       nth_error dyn i =
         Some (portfolio_entry cfg r
                 (config_of JSON_parse
                    (provider
                       (requests w ++ repos_request cfg ::
                          map (config_request cfg) (firstn i rs))
                       (config_request cfg r))))) /\
    l = JS.sort (compare_portfolios localeCompare)
          (staticPortfolios cfg ++ dyn) /\
    Permutation (staticPortfolios cfg ++ dyn) l /\
    cache w' = {| data := Some l; timestamp := Some now |} /\
    list_fetches w' = S (list_fetches w).
Proof.
  intros until t. intros Hc Hnow rs.
  assert (Hmiss : cache_hit cfg (cache w) now = None).
  { unfold cache_hit. rewrite Hc. cbn.
    destruct (Z.ltb_spec (now - t) (cacheDuration cfg)); [lia|].
    now rewrite andb_false_r. }
  destruct (Promise_all_transforms_indexed JSON_parse cfg provider rs
              (sent (repos_request cfg) w)) as (dyn & Hall & Hlen & Hnth).
  exists dyn. eexists _, _. split.
  - unfold getAllPortfolios, getAllPortfolios_with, bind, get_cache.
    rewrite Hmiss, fetchRepositories_run. fold rs. cbn zeta.
    rewrite Hall. reflexivity.
  - split; [exact Hlen|]. split.
    + intros i r Hr. rewrite (Hnth i r Hr). cbn [requests sent].
      now rewrite <- app_assoc.
    + split; [reflexivity|]. split; [apply sort_perm|].
      split; [reflexivity|].
      cbn [sent requests cache]. rewrite <- app_assoc.
      apply list_fetches_refresh.
      apply Forall_forall. intros rq Hrq.
      apply in_map_iff in Hrq as (r & <- & _). reflexivity.
Qed.

Lemma getAllPortfolios_refreshes_stale_cache_witness :
  exists dyn l w',
    getAllPortfolios never_parses codeUnitCompare demo_config demo_provider
      300005
      {| cache := {| data := Some []; timestamp := Some 5%Z |};
         requests := [repos_request demo_config] |} = (Fulfilled l, w') /\
    map Portfolio.name dyn = ["Apple"; "Bear"] /\
    map Portfolio.name l = ["Bear"; "Trizl"; "Apple"] /\
    cache w' = {| data := Some l; timestamp := Some 300005%Z |} /\
    list_fetches w' = 2.
Proof.
  destruct (getAllPortfolios_refreshes_stale_cache never_parses
              codeUnitCompare demo_config demo_provider 300005%Z
              {| cache := {| data := Some []; timestamp := Some 5%Z |};
                 requests := [repos_request demo_config] |} [] 5%Z)
    as (dyn & l & w' & Hrun & Hlen & Hnth & Hl & _ & Hcache & Hfetch).
  - reflexivity.
  - vm_compute. discriminate.
  - exists dyn, l, w'.
    assert (Hdyn : map Portfolio.name dyn = ["Apple"; "Bear"]).
    { pose proof (Hnth 0%nat _ eq_refl) as H0.
      pose proof (Hnth 1%nat _ eq_refl) as H1.
      destruct dyn as [|p0 [|p1 [|p2 dyn]]]; try discriminate Hlen.
      cbn in H0, H1. injection H0 as ->. injection H1 as ->. reflexivity. }
    repeat split; try assumption.
    rewrite Hl.
    destruct dyn as [|p0 [|p1 [|p2 dyn]]]; try discriminate Hlen.
    pose proof (Hnth 0%nat _ eq_refl) as H0.
    pose proof (Hnth 1%nat _ eq_refl) as H1.
    cbn in H0, H1. injection H0 as ->. injection H1 as ->.
    vm_compute. reflexivity.
Defined.

(** C1, at the clock reading [0].  A first call at [Date.now() = 0] fills
    the cache with timestamp [0]; a second call, whatever the time, does
    not take the fast path: the repository list has then been asked for
    twice. *)
Theorem getAllPortfolios_refetches_after_epoch :
  forall JSON_parse localeCompare cfg provider now',
  exists l1 w1 l2 w2,
    getAllPortfolios JSON_parse localeCompare cfg provider 0 new_world =
      (Fulfilled l1, w1) /\
    cache w1 = {| data := Some l1; timestamp := Some 0%Z |} /\
    list_fetches w1 = 1 /\
    getAllPortfolios JSON_parse localeCompare cfg provider now' w1 =
      (Fulfilled l2, w2) /\
    list_fetches w2 = 2.
Proof.
  intros.
  destruct (getAllPortfolios_refresh JSON_parse localeCompare cfg provider
              0 new_world eq_refl) as (dyn & extra & Hrun & Hraw & _).
  cbn zeta in Hrun.
  set (l1 := JS.sort (compare_portfolios localeCompare)
               (staticPortfolios cfg ++ dyn)) in *.
  set (w1 := {| cache := {| data := Some l1; timestamp := Some 0%Z |};
                requests := requests new_world ++ repos_request cfg :: extra |})
    in *.
  assert (Hmiss : cache_hit cfg (cache w1) now' = None) by reflexivity.
  destruct (getAllPortfolios_refresh JSON_parse localeCompare cfg provider
              now' w1 Hmiss) as (dyn' & extra' & Hrun' & Hraw' & _).
  cbn zeta in Hrun'.
  assert (H1 : list_fetches w1 = 1)
    by now apply (list_fetches_refresh cfg new_world).
  eexists l1, w1, _, _. repeat split; [exact Hrun | exact H1 | exact Hrun' |].
  rewrite list_fetches_refresh by assumption. now rewrite H1.
Qed.

(* ================================================================= *)
(** ** A transform that fails outright *)

(** C5, as the code has it.  [getAllPortfolios] joins the transforms with
    [Promise.all]: in a refresh, when the transform of one matching
    repository rejects, [getAllPortfolios] rejects too, and no sequence is
    returned; when the transforms leave the cache alone, the cache record
    stays as it was.  The manager's own [transformToPortfolio] fulfils in
    every state. *)
Theorem getAllPortfolios_rejects_with_a_transform :
  (forall localeCompare cfg provider (transform : Repo.t -> M Portfolio.t)
          now w r,
     cache_hit cfg (cache w) now = None ->
     In r (filterPortfolioRepos cfg
             (repos_of (provider (requests w) (repos_request cfg)))) ->
     (forall w0, exists e w1, transform r w0 = (Rejected e, w1)) ->
     exists e w',
       getAllPortfolios_with localeCompare cfg provider transform now w =
         (Rejected e, w') /\
       ((forall r0 w0, cache (snd (transform r0 w0)) = cache w0) ->
        cache w' = cache w)) /\
  (forall JSON_parse cfg provider r w,
     exists p w',
       transformToPortfolio JSON_parse cfg provider r w = (Fulfilled p, w')).
Proof.
  split.
  - intros localeCompare cfg provider transform now w r Hmiss Hin Hrej.
    unfold getAllPortfolios_with, bind, get_cache.
    rewrite Hmiss, fetchRepositories_run.
    cbn zeta. set (rs := filterPortfolioRepos cfg _) in *.
    match goal with
    | |- context [Promise_all ?ms ?w0] =>
        destruct (Promise_all_rejected ms
                    (ex_intro _ (transform r)
                       (conj (in_map transform rs r Hin) Hrej)) w0)
          as (e & w' & Hall);
        pose proof (Promise_all_cache ms) as Hcache;
        specialize (fun H => Hcache H w0);
        rewrite Hall in *
    end.
    exists e, w'. split; [reflexivity|].
    intro Hkeep. apply Hcache.
    intros m w0 Hm. apply in_map_iff in Hm as (r0 & <- & _). apply Hkeep.
  - intros. rewrite transformToPortfolio_run. eauto.
Qed.

Lemma getAllPortfolios_rejects_with_a_transform_witness :
  exists e w',
    getAllPortfolios_with codeUnitCompare demo_config demo_provider
      flaky_transform 1000 new_world = (Rejected e, w') /\
    ((forall r0 w0, cache (snd (flaky_transform r0 w0)) = cache w0) ->
     cache w' = cache new_world).
Proof.
  apply (proj1 getAllPortfolios_rejects_with_a_transform codeUnitCompare
           demo_config demo_provider flaky_transform 1000%Z new_world
           (repo_named "portfolioBear")).
  - reflexivity.
  - vm_compute. auto.
  - intro w0. exists "transform failed", w0. reflexivity.
Defined.

(** C5, as stated, at a concrete refresh.  Of the two matching
    repositories, the transform of [portfolioApple] fulfils and that of
    [portfolioBear] rejects; [getAllPortfolios] then rejects, instead of
    returning the static entry and the entry of [portfolioApple], and the
    cache is left empty. *)
Lemma failed_transform_aborts_the_batch :
  filterPortfolioRepos demo_config
    (repos_of (demo_provider [] (repos_request demo_config))) =
    [repo_named "portfolioApple"; repo_named "portfolioBear"] /\
  (exists p, fst (flaky_transform (repo_named "portfolioApple")
                    (sent (repos_request demo_config) new_world))
             = Fulfilled p) /\
  getAllPortfolios_with codeUnitCompare demo_config demo_provider
    flaky_transform 1000 new_world =
    (Rejected "transform failed",
     {| cache := {| data := None; timestamp := None |};
        requests := [repos_request demo_config;
                     config_request demo_config
                       (repo_named "portfolioApple")] |}).
Proof.
  split; [reflexivity|]. split; [eexists; reflexivity|].
  vm_compute. reflexivity.
Qed.

(* ================================================================= *)
(** ** The order of the sequence *)

Lemma codeUnit_spec a b :
  CompareSpec (a = b) (String_as_OT.compare a b = Lt)
    (String_as_OT.compare b a = Lt) (String_as_OT.compare a b).
Proof. exact (String_as_OT.compare_spec a b). Qed.

Lemma codeUnit_irrefl a : String_as_OT.compare a a <> Lt.
Proof. destruct String_as_OT.lt_strorder as [Hirr _]. exact (Hirr a). Qed.

Lemma codeUnit_trans a b c :
  String_as_OT.compare a b = Lt -> String_as_OT.compare b c = Lt ->
  String_as_OT.compare a c = Lt.
Proof. destruct String_as_OT.lt_strorder as [_ Htr]. exact (Htr a b c). Qed.

Lemma codeUnit_flip a b :
  String_as_OT.compare a b = Lt -> String_as_OT.compare b a = Gt.
Proof.
  intro Hab. destruct (codeUnit_spec b a) as [E|Hba|_]; [| |reflexivity].
  - subst b. now destruct (codeUnit_irrefl a).
  - destruct (codeUnit_irrefl a). now apply codeUnit_trans with b.
Qed.

Lemma codeUnit_refl a : String_as_OT.compare a a = Eq.
Proof.
  destruct (codeUnit_spec a a) as [_|H|H];
    [reflexivity | now destruct (codeUnit_irrefl a) ..].
Qed.

Lemma codeUnitCompare_consistent : consistent codeUnitCompare.
Proof.
  split.
  - intros a b. unfold codeUnitCompare.
    destruct (codeUnit_spec a b) as [E|Hab|Hba].
    + subst b. now rewrite codeUnit_refl.
    + now rewrite (codeUnit_flip a b Hab).
    + now rewrite Hba.
  - intros a b c. unfold codeUnitCompare.
    destruct (codeUnit_spec a b) as [E|Hab|Hba];
      destruct (codeUnit_spec b c) as [E'|Hbc|Hcb];
      try subst b; try subst c; cbn; try lia; intros _ _.
    + rewrite codeUnit_refl. lia.
    + rewrite Hbc. lia.
    + rewrite Hab. lia.
    + rewrite (codeUnit_trans _ _ _ Hab Hbc). lia.
Qed.

Lemma cache_hit_data cfg c now d :
  cache_hit cfg c now = Some d -> data c = Some d.
Proof.
  unfold cache_hit. destruct (data c), (timestamp c); try discriminate.
  destruct (_ && _)%bool; [congruence | discriminate].
Qed.

Section Invariant.

Variable JSON_parse : string -> option Json.
Variable localeCompare : string -> string -> Z.
Variable cfg : Config.
Variable provider : list Request -> Request -> Outcome Payload.
Hypothesis Hcons : consistent localeCompare.

Local Abbreviation all := (getAllPortfolios JSON_parse localeCompare cfg provider).
Local Abbreviation one := (getPortfolio JSON_parse localeCompare cfg provider).
Local Abbreviation content :=
  (getPortfolioContent JSON_parse localeCompare cfg provider).

Lemma getAllPortfolios_keeps_order now w :
  cache_in_order localeCompare cfg w ->
  cache_in_order localeCompare cfg (snd (all now w)).
Proof.
  intro Hw. destruct (cache_hit cfg (cache w) now) as [d|] eqn:Hhit.
  - now rewrite (getAllPortfolios_hit JSON_parse localeCompare _ _ _ _ _ Hhit).
  - destruct (getAllPortfolios_refresh JSON_parse localeCompare cfg provider
                now w Hhit) as (dyn & extra & Hrun & _).
    cbn zeta in Hrun. rewrite Hrun. intros d Hd. cbn in Hd.
    injection Hd as <-. split.
    + now apply sort_featured_then_name.
    + exists dyn. apply sort_perm.
Qed.

Lemma getPortfolio_world now slug w :
  snd (one now slug w) = snd (all now w).
Proof.
  destruct (getAllPortfolios_fulfils JSON_parse localeCompare cfg provider
              now w) as (l & w' & Hall).
  now rewrite (getPortfolio_run _ _ _ _ _ slug _ _ _ Hall), Hall.
Qed.

Lemma getPortfolioContent_cache now slug w :
  cache (snd (content now slug w)) = cache (snd (all now w)).
Proof.
  rewrite <- (getPortfolio_world now slug w).
  destruct (getAllPortfolios_fulfils JSON_parse localeCompare cfg provider
              now w) as (l & w' & Hall).
  pose proof (getPortfolio_run _ _ _ _ _ slug _ _ _ Hall) as Hone.
  destruct (find (has_slug slug) l) as [p|].
  - destruct (Portfolio.isDynamic p) eqn:Hd.
    + rewrite (getPortfolioContent_dynamic _ _ _ _ _ _ _ _ _ Hone Hd), Hone.
      reflexivity.
    + now rewrite (getPortfolioContent_static _ _ _ _ _ _ _ _ _ Hone Hd), Hone.
  - now rewrite (getPortfolioContent_absent _ _ _ _ _ _ _ _ Hone), Hone.
Qed.

(** In every state a manager reaches, the cached sequence is in order. *)
Lemma reachable_cache_in_order w :
  reachable JSON_parse localeCompare cfg provider w ->
  cache_in_order localeCompare cfg w.
Proof.
  induction 1 as [|now w _ IH|now slug w _ IH|now slug w _ IH].
  - intros d Hd. discriminate.
  - now apply getAllPortfolios_keeps_order.
  - rewrite getPortfolio_world. now apply getAllPortfolios_keeps_order.
  - intros d Hd. rewrite getPortfolioContent_cache in Hd.
    exact (getAllPortfolios_keeps_order now w IH d Hd).
Qed.

End Invariant.

(** C3.  For a [localeCompare] that orders the strings, the sequence
    [getAllPortfolios] returns, in every state a manager reaches, is made
    of the static entries and of dynamic ones, and is in order: of two of
    its entries, the later one is featured only if the earlier one is, and
    when both are featured or both are not, the earlier name compares below
    or equal to the later one.  With the static entry [Trizl] (featured)
    and the dynamic entries [Apple] (not featured) and [Bear] (featured),
    and [Bear] comparing below [Trizl], the sequence is [Bear], [Trizl],
    [Apple]. *)
Theorem getAllPortfolios_featured_then_name :
  forall localeCompare,
  consistent localeCompare ->
  (forall JSON_parse cfg provider now w,
     reachable JSON_parse localeCompare cfg provider w ->
     exists l w',
       getAllPortfolios JSON_parse localeCompare cfg provider now w =
         (Fulfilled l, w') /\
       featured_then_name localeCompare l /\
       exists dyn, Permutation (staticPortfolios cfg ++ dyn) l) /\
  ((localeCompare "Bear" "Trizl" < 0)%Z ->
   forall JSON_parse,
   exists l w',
     getAllPortfolios JSON_parse localeCompare demo_config demo_provider
       1000 new_world = (Fulfilled l, w') /\
     map Portfolio.name (staticPortfolios demo_config) = ["Trizl"] /\
     map (fun p => (Portfolio.name p, Portfolio.featured p,
                    Portfolio.isDynamic p)) l =
       [("Bear", true, true); ("Trizl", true, false);
        ("Apple", false, true)]).
Proof.
  intros localeCompare Hcons. split.
  - intros JSON_parse cfg provider now w Hw.
    destruct (getAllPortfolios_fulfils JSON_parse localeCompare cfg provider
                now w) as (l & w' & Hall).
    exists l, w'. split; [exact Hall|].
    pose proof (reachable_cache_in_order _ _ _ _ Hcons _
                  (reach_all _ _ _ _ now w Hw)) as Hinv.
    rewrite Hall in Hinv. cbn [snd] in Hinv.
    destruct (cache_hit cfg (cache w) now) as [d|] eqn:Hhit.
    + rewrite (getAllPortfolios_hit JSON_parse localeCompare _ _ _ _ _ Hhit)
        in Hall.
      injection Hall as <- <-. apply Hinv.
      now apply cache_hit_data with cfg now.
    + destruct (getAllPortfolios_refresh JSON_parse localeCompare cfg
                  provider now w Hhit) as (dyn & extra & Hrun & _).
      cbn zeta in Hrun. rewrite Hrun in Hall. injection Hall as <- <-.
      apply Hinv. reflexivity.
  - intros Hbt JSON_parse.
    assert (Htb : (localeCompare "Trizl" "Bear" <=? 0)%Z = false).
    { destruct Hcons as [Hanti _]. specialize (Hanti "Trizl" "Bear").
      apply Z.leb_gt.
      destruct (Z.sgn_spec (localeCompare "Trizl" "Bear"))
        as [[? ?]|[[? ?]|[? ?]]];
        destruct (Z.sgn_spec (localeCompare "Bear" "Trizl"))
          as [[? ?]|[[? ?]|[? ?]]]; lia. }
    eexists _, _. split; [|split; [reflexivity|]].
    + unfold getAllPortfolios, getAllPortfolios_with, bind, get_cache.
      cbn [cache_hit cache data new_world].
      rewrite fetchRepositories_run.
      cbn [requests new_world repos_of demo_provider].
      reflexivity.
    + cbn.
      change (extractPortfolioName demo_config "portfolioBear") with "Bear".
      rewrite Htb. reflexivity.
Qed.

Lemma getAllPortfolios_featured_then_name_witness :
  exists l w',
    getAllPortfolios never_parses codeUnitCompare demo_config demo_provider
      1000 new_world = (Fulfilled l, w') /\
    map Portfolio.name (staticPortfolios demo_config) = ["Trizl"] /\
    map (fun p => (Portfolio.name p, Portfolio.featured p,
                   Portfolio.isDynamic p)) l =
      [("Bear", true, true); ("Trizl", true, false); ("Apple", false, true)].
Proof.
  apply (proj2 (getAllPortfolios_featured_then_name codeUnitCompare
                  codeUnitCompare_consistent)).
  vm_compute. reflexivity.
Defined.

(* ================================================================= *)
(** ** A refresh, request by request *)

Section Refresh.

Variable JSON_parse : string -> option Json.
Variable localeCompare : string -> string -> Z.
Variable cfg : Config.
Variable provider : list Request -> Request -> Outcome Payload.

Local Abbreviation transform := (transformToPortfolio JSON_parse cfg provider).
Local Abbreviation all := (getAllPortfolios JSON_parse localeCompare cfg provider).
Local Abbreviation one := (getPortfolio JSON_parse localeCompare cfg provider).
Local Abbreviation content :=
  (getPortfolioContent JSON_parse localeCompare cfg provider).

Lemma Promise_all_transforms_exact rs w :
  exists dyn,
    Promise_all (map transform rs) w =
      (Fulfilled dyn,
       {| cache := cache w;
          requests := requests w ++ map (config_request cfg) rs |}) /\
    Forall2 (entry_of cfg) rs dyn.
Proof.
  revert w. induction rs as [|r rs IH]; intro w.
  - exists []. cbn. rewrite app_nil_r. destruct w; auto.
  - cbn [map Promise_all]. rewrite transformToPortfolio_run.
    destruct (IH (sent (config_request cfg r) w)) as (dyn & Hrun & Hdyn).
    rewrite Hrun. cbn [join_outcome cache requests sent].
    eexists (_ :: dyn). rewrite <- app_assoc. split; [reflexivity|].
    constructor; [eexists; reflexivity | assumption].
Qed.

Lemma getAllPortfolios_refresh_exact now w :
  cache_hit cfg (cache w) now = None ->
  let rs := filterPortfolioRepos cfg
              (repos_of (provider (requests w) (repos_request cfg))) in
  exists dyn,
    let l := JS.sort (compare_portfolios localeCompare)
               (staticPortfolios cfg ++ dyn) in
    all now w =
      (Fulfilled l,
       {| cache := {| data := Some l; timestamp := Some now |};
          requests := requests w ++
            repos_request cfg :: map (config_request cfg) rs |}) /\
    Forall2 (entry_of cfg) rs dyn.
Proof.
  intros H rs.
  unfold getAllPortfolios, getAllPortfolios_with, bind, get_cache.
  rewrite H, fetchRepositories_run. fold rs.
  destruct (Promise_all_transforms_exact rs (sent (repos_request cfg) w))
    as (dyn & Hrun & Hdyn).
  exists dyn. cbn zeta. rewrite Hrun.
  cbn [sent cache requests set_cache ret]. rewrite <- app_assoc.
  split; [reflexivity | assumption].
Qed.

(** What the three public operations add to the list of requests. *)
Lemma getAllPortfolios_requests now w :
  exists extra,
    requests (snd (all now w)) = requests w ++ extra /\
    Forall (fun rq => owner rq = githubOwner cfg /\ manager_endpoint rq)
      extra.
Proof.
  destruct (cache_hit cfg (cache w) now) as [d|] eqn:Hhit.
  - exists []. rewrite (getAllPortfolios_hit _ _ _ _ _ _ _ Hhit).
    cbn. now rewrite app_nil_r.
  - destruct (getAllPortfolios_refresh_exact now w Hhit) as (dyn & Hrun & _).
    cbn zeta in Hrun. rewrite Hrun. cbn [snd requests].
    eexists. split; [reflexivity|].
    constructor; [split; [reflexivity | now left]|].
    apply Forall_forall. intros rq Hrq.
    apply in_map_iff in Hrq as (r & <- & _).
    split; [reflexivity | right; now left].
Qed.

Lemma getPortfolioContent_requests now slug w :
  exists extra,
    requests (snd (content now slug w)) = requests w ++ extra /\
    Forall (fun rq => owner rq = githubOwner cfg /\ manager_endpoint rq)
      extra.
Proof.
  destruct (getAllPortfolios_requests now w) as (extra & Hreq & Hgood).
  destruct (getAllPortfolios_fulfils JSON_parse localeCompare cfg provider
              now w) as (l & w' & Hall).
  rewrite Hall in Hreq. cbn [snd] in Hreq.
  pose proof (getPortfolio_run _ _ _ _ _ slug _ _ _ Hall) as Hone.
  destruct (find (has_slug slug) l) as [p|].
  - destruct (Portfolio.isDynamic p) eqn:Hd.
    + rewrite (getPortfolioContent_dynamic _ _ _ _ _ _ _ _ _ Hone Hd).
      cbn [snd requests]. rewrite Hreq, <- app_assoc.
      eexists. split; [reflexivity|].
      apply Forall_app. split; [assumption|].
      unfold manager_endpoint.
      constructor; [cbn; auto|]. constructor; [cbn; auto|]. constructor.
    + rewrite (getPortfolioContent_static _ _ _ _ _ _ _ _ _ Hone Hd).
      now exists extra.
  - rewrite (getPortfolioContent_absent _ _ _ _ _ _ _ _ Hone).
    now exists extra.
Qed.

(** In every state a manager reaches, each request sent is for the
    configured owner and for one of three endpoints. *)
Lemma reachable_requests w :
  reachable JSON_parse localeCompare cfg provider w ->
  Forall (fun rq => owner rq = githubOwner cfg /\ manager_endpoint rq)
    (requests w).
Proof.
  induction 1 as [|now w _ IH|now slug w _ IH|now slug w _ IH].
  - constructor.
  - destruct (getAllPortfolios_requests now w) as (extra & -> & Hgood).
    apply Forall_app. now split.
  - rewrite getPortfolio_world.
    destruct (getAllPortfolios_requests now w) as (extra & -> & Hgood).
    apply Forall_app. now split.
  - destruct (getPortfolioContent_requests now slug w)
      as (extra & -> & Hgood).
    apply Forall_app. now split.
Qed.

(** In every state a manager reaches, the cached sequence is made of the
    static entries and of one entry per repository of a list of matching
    repositories. *)
Lemma reachable_cache_entries w :
  reachable JSON_parse localeCompare cfg provider w ->
  forall d, data (cache w) = Some d ->
  exists rs dyn,
    Forall (fun r => repoPattern cfg (Repo.name r) <> None) rs /\
    Forall2 (entry_of cfg) rs dyn /\
    Permutation (staticPortfolios cfg ++ dyn) d.
Proof.
  assert (Hall : forall now w0,
    (forall d, data (cache w0) = Some d ->
       exists rs dyn,
         Forall (fun r => repoPattern cfg (Repo.name r) <> None) rs /\
         Forall2 (entry_of cfg) rs dyn /\
         Permutation (staticPortfolios cfg ++ dyn) d) ->
    forall d, data (cache (snd (all now w0))) = Some d ->
       exists rs dyn,
         Forall (fun r => repoPattern cfg (Repo.name r) <> None) rs /\
         Forall2 (entry_of cfg) rs dyn /\
         Permutation (staticPortfolios cfg ++ dyn) d).
  { intros now w0 IH d Hd.
    destruct (cache_hit cfg (cache w0) now) as [d'|] eqn:Hhit.
    - rewrite (getAllPortfolios_hit _ _ _ _ _ _ _ Hhit) in Hd. now apply IH.
    - destruct (getAllPortfolios_refresh_exact now w0 Hhit)
        as (dyn & Hrun & Hdyn).
      cbn zeta in Hrun. rewrite Hrun in Hd. cbn in Hd. injection Hd as <-.
      eexists _, dyn. split; [|split; [exact Hdyn | apply sort_perm]].
      unfold filterPortfolioRepos. apply Forall_forall. intros r Hr.
      apply filter_In in Hr as [_ Hr].
      destruct (repoPattern cfg (Repo.name r)); [discriminate | discriminate]. }
  induction 1 as [|now w _ IH|now slug w _ IH|now slug w _ IH].
  - intros d Hd. discriminate.
  - now apply Hall.
  - rewrite getPortfolio_world. now apply Hall.
  - intros d Hd.
    rewrite (getPortfolioContent_cache JSON_parse localeCompare cfg provider)
      in Hd.
    exact (Hall now w IH d Hd).
Qed.

End Refresh.

(* ================================================================= *)
(** ** Further properties of the manager *)

(** X1.  Under the pattern of [config.js], [filterPortfolioRepos] keeps
    exactly the descriptors of the list whose name reads as [portfolio],
    in either case, followed by a non-empty rest without line
    terminators. *)
Theorem filterPortfolioRepos_keeps_the_matches :
  forall repos r,
  In r (filterPortfolioRepos PORTFOLIO_CONFIG repos) <->
  In r repos /\ exists rest, matches_portfolio (Repo.name r) rest.
Proof.
  intros repos r. unfold filterPortfolioRepos. rewrite filter_In.
  cbn [repoPattern PORTFOLIO_CONFIG].
  split; intros [Hin Hm]; (split; [exact Hin|]).
  - destruct (portfolio_pattern_shape (Repo.name r)) as [E | (rest & E)].
    + rewrite E in Hm. discriminate.
    + exists rest. now apply portfolio_pattern_matches.
  - destruct Hm as (rest & Hm). apply portfolio_pattern_matches in Hm.
    now rewrite Hm.
Qed.

(** X2.  A refresh sends the request for the repository list and then,
    in the order of the list, one [raw] request per matching repository,
    for its [portfolio.json] on its default branch ([main] when it names
    none); a repository that does not match gets no request. *)
Theorem getAllPortfolios_refresh_requests :
  forall JSON_parse localeCompare cfg provider now w,
  cache_hit cfg (cache w) now = None ->
  requests (snd (getAllPortfolios JSON_parse localeCompare cfg provider
                   now w)) =
  requests w ++
  {| endpoint := "repos"; owner := githubOwner cfg;
     repo := None; path := None; branch := None |} ::
  map (fun r =>
         {| endpoint := "raw"; owner := githubOwner cfg;
            repo := Some (Repo.name r);
            path := Some (config (expectedFiles cfg));
            branch := Some (JS.or_string (Repo.default_branch r) "main") |})
      (filterPortfolioRepos cfg
         (repos_of (provider (requests w) (repos_request cfg)))).
Proof.
  intros JSON_parse localeCompare cfg provider now w Hmiss.
  destruct (getAllPortfolios_refresh_exact JSON_parse localeCompare cfg
              provider now w Hmiss) as (dyn & Hrun & _).
  cbn zeta in Hrun. now rewrite Hrun.
Qed.

Lemma getAllPortfolios_refresh_requests_witness :
  requests (snd (getAllPortfolios never_parses codeUnitCompare demo_config
                   demo_provider 1000 new_world)) =
  [ repos_request demo_config;
    config_request demo_config (repo_named "portfolioApple");
    config_request demo_config (repo_named "portfolioBear") ].
Proof.
  exact (getAllPortfolios_refresh_requests never_parses codeUnitCompare
           demo_config demo_provider 1000%Z new_world eq_refl).
Defined.

(** X3.  A refresh returns the static entries together with one entry per
    matching repository of the provider's list, nothing dropped and nothing
    merged: the sequence is a permutation of the static entries followed
    by the entries made, in order, from the matching descriptors, so its
    length is the number of static entries plus the number of matching
    repositories. *)
Theorem getAllPortfolios_refresh_entries :
  forall JSON_parse localeCompare cfg provider now w,
  cache_hit cfg (cache w) now = None ->
  let rs := filterPortfolioRepos cfg
              (repos_of (provider (requests w) (repos_request cfg))) in
  exists dyn l w',
    getAllPortfolios JSON_parse localeCompare cfg provider now w =
      (Fulfilled l, w') /\
    Forall2 (fun r p =>
               exists c, p = portfolio_entry cfg r c /\
                 Portfolio.slug p = JS.toLowerCase (Repo.name r) /\
                 Portfolio.isDynamic p = true)
            rs dyn /\
    Permutation (staticPortfolios cfg ++ dyn) l /\
    List.length l =
      (List.length (staticPortfolios cfg) + List.length rs)%nat.
Proof.
  intros JSON_parse localeCompare cfg provider now w Hmiss rs.
  destruct (getAllPortfolios_refresh_exact JSON_parse localeCompare cfg
              provider now w Hmiss) as (dyn & Hrun & Hdyn).
  cbn zeta in Hrun. fold rs in Hdyn.
  eexists dyn, _, _. split; [exact Hrun|]. split; [|split].
  - eapply Forall2_impl; [|exact Hdyn].
    intros r p (c & ->). exists c. repeat split.
  - apply sort_perm.
  - rewrite <- (Permutation_length (sort_perm _ _)), length_app.
    now rewrite (Forall2_length Hdyn).
Qed.

Lemma getAllPortfolios_refresh_entries_witness :
  exists dyn l w',
    getAllPortfolios never_parses codeUnitCompare demo_config demo_provider
      1000 new_world = (Fulfilled l, w') /\
    Forall2 (fun r p =>
               exists c, p = portfolio_entry demo_config r c /\
                 Portfolio.slug p = JS.toLowerCase (Repo.name r) /\
                 Portfolio.isDynamic p = true)
            (filterPortfolioRepos demo_config
               (repos_of (demo_provider (requests new_world)
                            (repos_request demo_config)))) dyn /\
    Permutation (staticPortfolios demo_config ++ dyn) l /\
    List.length l =
      (List.length (staticPortfolios demo_config) +
       List.length (filterPortfolioRepos demo_config
                      (repos_of (demo_provider (requests new_world)
                                   (repos_request demo_config)))))%nat.
Proof.
  exact (getAllPortfolios_refresh_entries never_parses codeUnitCompare
           demo_config demo_provider 1000%Z new_world eq_refl).
Defined.

Lemma map_units_app f a b :
  JS.map_units f (a ++ b) = (JS.map_units f a ++ JS.map_units f b)%string.
Proof. induction a as [|c a IH]; cbn; congruence. Qed.

Lemma matching_slug_prefix name :
  portfolio_pattern name <> None ->
  prefix "portfolio" (JS.toLowerCase name) = true.
Proof.
  intro H. destruct (portfolio_pattern_shape name) as [E | (rest & E)];
    [contradiction|].
  apply portfolio_pattern_matches in E as (pre & -> & Hp & _).
  unfold JS.toLowerCase in *. rewrite map_units_app, Hp.
  apply prefix_correct. apply (substring_prefix "portfolio").
Qed.

Lemma Forall2_In_r {A B : Type} (R : A -> B -> Prop) l1 l2 y :
  Forall2 R l1 l2 -> In y l2 -> exists x, In x l1 /\ R x y.
Proof.
  induction 1 as [|x y' l1 l2 Hxy _ IH]; intros Hin; [destruct Hin|].
  destruct Hin as [<- | Hin].
  - exists x. split; [now left | assumption].
  - destruct (IH Hin) as (x' & Hx' & HR). exists x'. split; [now right | assumption].
Qed.

Lemma getAllPortfolios_result_cached JSON_parse localeCompare cfg provider
    now w l w' :
  getAllPortfolios JSON_parse localeCompare cfg provider now w =
    (Fulfilled l, w') ->
  data (cache w') = Some l.
Proof.
  intro Hall. destruct (cache_hit cfg (cache w) now) as [d|] eqn:Hhit.
  - rewrite (getAllPortfolios_hit JSON_parse localeCompare _ _ _ _ _ Hhit)
      in Hall.
    injection Hall as <- <-. now apply cache_hit_data with cfg now.
  - destruct (getAllPortfolios_refresh JSON_parse localeCompare cfg provider
                now w Hhit) as (dyn & extra & Hrun & _).
    cbn zeta in Hrun. rewrite Hrun in Hall. now injection Hall as <- <-.
Qed.

(** X4.  Under the pattern of [config.js], no repository shadows a static
    entry whose slug does not begin with [portfolio]: in every state a
    manager reaches, [getPortfolio] on the slug of such an entry, when no
    other static entry shares the slug, finds that entry; and when the
    entry is not dynamic, [getPortfolioContent] gives [null] for it. *)
Theorem getPortfolio_finds_the_static_entry :
  forall JSON_parse localeCompare cfg provider now w e,
  reachable JSON_parse localeCompare cfg provider w ->
  repoPattern cfg = portfolio_pattern ->
  In e (staticPortfolios cfg) ->
  prefix "portfolio" (Portfolio.slug e) = false ->
  (forall e', In e' (staticPortfolios cfg) ->
              Portfolio.slug e' = Portfolio.slug e -> e' = e) ->
  exists w',
    getPortfolio JSON_parse localeCompare cfg provider now
      (Portfolio.slug e) w = (Fulfilled (Some e), w') /\
    (Portfolio.isDynamic e = false ->
     getPortfolioContent JSON_parse localeCompare cfg provider now
       (Portfolio.slug e) w = (Fulfilled None, w')).
Proof.
  intros JSON_parse localeCompare cfg provider now w e Hw Hpat He Hslug Huniq.
  destruct (getAllPortfolios_fulfils JSON_parse localeCompare cfg provider
              now w) as (l & w' & Hall).
  pose proof (getPortfolio_run _ _ _ _ _ (Portfolio.slug e) _ _ _ Hall)
    as Hone.
  destruct (reachable_cache_entries JSON_parse localeCompare cfg provider _
              (reach_all _ _ _ _ now w Hw) l) as (rs & dyn & Hrs & Hdyn & Hperm).
  { rewrite Hall. cbn [snd].
    now apply getAllPortfolios_result_cached in Hall. }
  assert (Hfind : find (has_slug (Portfolio.slug e)) l = Some e).
  { destruct (find (has_slug (Portfolio.slug e)) l) as [p|] eqn:Hf.
    - apply find_some in Hf as [Hp Hps]. apply has_slug_true in Hps.
      apply (Permutation_in _ (Permutation_sym Hperm)) in Hp.
      apply in_app_or in Hp as [Hp | Hp].
      + f_equal. now apply Huniq.
      + destruct (Forall2_In_r _ _ _ _ Hdyn Hp) as (r & Hr & c & ->).
        rewrite Forall_forall in Hrs. specialize (Hrs r Hr).
        rewrite Hpat in Hrs. apply matching_slug_prefix in Hrs.
        cbn [Portfolio.slug portfolio_entry] in Hps.
        rewrite Hps in Hrs. congruence.
    - exfalso.
      assert (Hin : In e l)
        by (apply (Permutation_in _ Hperm), in_or_app; now left).
      pose proof (find_none _ _ Hf e Hin) as Hn.
      apply has_slug_false in Hn. now apply Hn. }
  rewrite Hfind in Hone. exists w'. split; [exact Hone|].
  intro Hstatic. now apply getPortfolioContent_static with e.
Qed.

Lemma getPortfolio_finds_the_static_entry_witness :
  exists w',
    getPortfolio never_parses codeUnitCompare PORTFOLIO_CONFIG demo_provider
      1000 "bloxy" new_world =
      (Fulfilled (Some (Portfolio.static "Bloxy" "bloxy" "/portfolio/bloxy/"
                          "Roblox community management bot" true)), w') /\
    (false = false ->
     getPortfolioContent never_parses codeUnitCompare PORTFOLIO_CONFIG
       demo_provider 1000 "bloxy" new_world = (Fulfilled None, w')).
Proof.
  apply (getPortfolio_finds_the_static_entry never_parses codeUnitCompare
           PORTFOLIO_CONFIG demo_provider 1000%Z new_world
           (Portfolio.static "Bloxy" "bloxy" "/portfolio/bloxy/"
              "Roblox community management bot" true)).
  - constructor.
  - reflexivity.
  - cbn. auto.
  - reflexivity.
  - intros e' [<- | [<- | [<- | []]]]; cbn; intro H;
      [reflexivity | discriminate H | discriminate H].
Defined.

(** X5.  When the request for [portfolio.json] is answered by an object,
    directly or as a text [JSON.parse] reads, [transformToPortfolio] lets
    it override the derived values: its name, description and thumbnail
    win when they are non-empty strings, and [featured] is its flag.  An
    absent or empty name gives the extractor's name and an absent flag
    gives [false]; the slug is the repository name in lower case whatever
    the object holds. *)
Theorem transformToPortfolio_overlay :
  forall JSON_parse cfg provider r w o,
  (provider (requests w) (config_request cfg r)
     = Fulfilled (PJson (JConfig o)) \/
   exists s, provider (requests w) (config_request cfg r)
               = Fulfilled (PText s) /\
             JSON_parse s = Some (JConfig o)) ->
  exists p,
    transformToPortfolio JSON_parse cfg provider r w =
      (Fulfilled p, sent (config_request cfg r) w) /\
    (forall n, RepoConfig.name o = Some n -> n <> "" ->
               Portfolio.name p = n) /\
    (RepoConfig.name o = None \/ RepoConfig.name o = Some "" ->
     Portfolio.name p = extractPortfolioName cfg (Repo.name r)) /\
    (forall d, RepoConfig.description o = Some d -> d <> "" ->
               Portfolio.description p = d) /\
    (forall t, RepoConfig.thumbnail o = Some t -> t <> "" ->
               Portfolio.thumbnail p = Some t) /\
    (forall f, RepoConfig.featured o = Some f -> Portfolio.featured p = f) /\
    (RepoConfig.featured o = None -> Portfolio.featured p = false) /\
    Portfolio.slug p = JS.toLowerCase (Repo.name r) /\
    Portfolio.repoUrl p = Repo.html_url r.
Proof.
  intros JSON_parse cfg provider r w o Hans.
  rewrite transformToPortfolio_run. eexists. split; [reflexivity|].
  assert (Hc : config_of JSON_parse
                 (provider (requests w) (config_request cfg r))
               = Some (JConfig o)).
  { destruct Hans as [-> | (s & -> & Hs)]; [reflexivity | exact Hs]. }
  rewrite Hc. cbn. repeat split.
  - intros n -> Hn. cbn. now destruct (String.eqb_spec n "").
  - intros [-> | ->]; reflexivity.
  - intros d -> Hd. cbn. now destruct (String.eqb_spec d "").
  - intros t -> Ht. cbn. now destruct (String.eqb_spec t "").
  - now intros f ->.
  - now intros ->.
Qed.

Lemma transformToPortfolio_overlay_witness :
  exists p,
    transformToPortfolio never_parses demo_config demo_provider
      (repo_named "portfolioBear") new_world =
      (Fulfilled p,
       sent (config_request demo_config (repo_named "portfolioBear"))
         new_world) /\
    Portfolio.name p = "Bear" /\
    Portfolio.featured p = true /\
    Portfolio.slug p = "portfoliobear".
Proof.
  destruct (transformToPortfolio_overlay never_parses demo_config
              demo_provider (repo_named "portfolioBear") new_world
              (RepoConfig.mk None None None (Some true)))
    as (p & Hrun & _ & Hn & _ & _ & Hf & _ & Hs & _).
  - left. reflexivity.
  - exists p. repeat split; [exact Hrun | | | exact Hs].
    + apply Hn. now left.
    + now apply Hf.
Defined.

(** X6.  After a refresh at a clock reading that is not [0], a call within
    the cache duration returns the sequence of the refresh and leaves the
    state as it is: the two calls ask for the repository list once. *)
Theorem getAllPortfolios_twice_within_duration :
  forall JSON_parse localeCompare cfg provider now now' w,
  cache_hit cfg (cache w) now = None ->
  now <> 0%Z ->
  (now' - now < cacheDuration cfg)%Z ->
  exists l w1,
    getAllPortfolios JSON_parse localeCompare cfg provider now w =
      (Fulfilled l, w1) /\
    getAllPortfolios JSON_parse localeCompare cfg provider now' w1 =
      (Fulfilled l, w1) /\
    list_fetches w1 = S (list_fetches w).
Proof.
  intros JSON_parse localeCompare cfg provider now now' w Hmiss Hnow Hin.
  destruct (getAllPortfolios_refresh JSON_parse localeCompare cfg provider
              now w Hmiss) as (dyn & extra & Hrun & Hraw & _).
  cbn zeta in Hrun. eexists _, _. split; [exact Hrun|]. split.
  - apply getAllPortfolios_hit. unfold cache_hit. cbn.
    destruct (Z.eqb_spec now 0); [contradiction|].
    destruct (Z.ltb_spec (now' - now) (cacheDuration cfg));
      [reflexivity | lia].
  - now apply list_fetches_refresh.
Qed.

Lemma getAllPortfolios_twice_within_duration_witness :
  exists l w1,
    getAllPortfolios never_parses codeUnitCompare demo_config demo_provider
      1000 new_world = (Fulfilled l, w1) /\
    getAllPortfolios never_parses codeUnitCompare demo_config demo_provider
      300999 w1 = (Fulfilled l, w1) /\
    list_fetches w1 = 1.
Proof.
  apply (getAllPortfolios_twice_within_duration never_parses codeUnitCompare
           demo_config demo_provider 1000%Z 300999%Z new_world).
  - reflexivity.
  - discriminate.
  - reflexivity.
Defined.

Lemma fetchFileContent_run cfg provider repoName filePath br w :
  let rq := raw_request cfg repoName filePath
              match br with Some b => b | None => "main" end in
  fetchFileContent cfg provider repoName filePath br w =
    (Fulfilled (optional_of (provider (requests w) rq)), sent rq w).
Proof.
  intro rq. unfold fetchFileContent, try_catch, bind.
  rewrite githubRequest_run.
  fold (raw_request cfg repoName filePath
          match br with Some b => b | None => "main" end). fold rq.
  destruct (provider (requests w) rq) as [d|e]; reflexivity.
Qed.

(** X7.  [fetchFileContent] never rejects: it sends one [raw] request for
    the repository, path and branch given ([main] when the branch is left
    out), and gives the provider's answer, or [null] when the provider
    failed.  [fetchReadme] is [fetchFileContent] at the README path and at
    the descriptor's branch. *)
Theorem fetchFileContent_spec :
  forall cfg provider repoName filePath br w,
  let rq := {| endpoint := "raw"; owner := githubOwner cfg;
               repo := Some repoName; path := Some filePath;
               branch := Some match br with
                              | Some b => b
                              | None => "main"
                              end |} in
  (exists res,
     fetchFileContent cfg provider repoName filePath br w =
       (Fulfilled res,
        {| cache := cache w; requests := requests w ++ [rq] |}) /\
     match provider (requests w) rq with
     | Fulfilled d => res = Some d
     | Rejected _ => res = None
     end) /\
  (forall r,
     fetchReadme cfg provider r w =
     fetchFileContent cfg provider (Repo.name r)
       (readme (expectedFiles cfg))
       (Some (JS.or_string (Repo.default_branch r) "main")) w).
Proof.
  intros cfg provider repoName filePath br w rq. split.
  - unfold fetchFileContent, try_catch, bind. rewrite githubRequest_run.
    fold rq. destruct (provider (requests w) rq) as [d|e]; cbn;
      eexists; split; reflexivity.
  - intro r. reflexivity.
Qed.

(* ================================================================= *)
(** ** The GitHub proxy *)

Lemma new_Response_built b st h r :
  Http.new_Response b st h = Fulfilled r ->
  r = {| Http.status := st; Http.headers := h; Http.body := b |} /\
  (200 <= st <= 599)%Z.
Proof.
  unfold Http.new_Response.
  destruct (Z.ltb_spec st 200); [discriminate|].
  destruct (Z.ltb_spec 599 st); [discriminate|]. cbn [orb].
  destruct (_ && _)%bool; [discriminate|].
  intro E. injection E as <-. split; [reflexivity | lia].
Qed.

Lemma new_Response_accepts b st h :
  (200 <= st <= 599)%Z -> Http.null_body_status st = false ->
  Http.new_Response b st h =
    Fulfilled {| Http.status := st; Http.headers := h; Http.body := b |}.
Proof.
  intros Hr Hn. unfold Http.new_Response. rewrite Hn.
  destruct (Z.ltb_spec st 200); [lia|].
  destruct (Z.ltb_spec 599 st); [lia|]. reflexivity.
Qed.

(** What [relay] answers: GitHub's error status with the CORS headers, or
    200 with the three headers of the success path. *)
Lemma relay_answer g r :
  GithubProxy.relay g = Fulfilled r ->
  (GithubProxy.ok g = false /\ Http.status r = GithubProxy.gh_status g /\
   Http.headers r = GithubProxy.cors_json) \/
  (GithubProxy.ok g = true /\ Http.status r = 200%Z /\
   In ("Access-Control-Allow-Origin", "*") (Http.headers r)).
Proof.
  unfold GithubProxy.relay.
  destruct (match Http.nonempty (GithubProxy.content_type g) with
            | Some ct => if Http.includes ct "application/json"
                         then GithubProxy.gh_json g
                         else Fulfilled (Http.JStr (GithubProxy.gh_text g))
            | None => Fulfilled (Http.JStr (GithubProxy.gh_text g))
            end) as [d|e]; [|discriminate].
  destruct (GithubProxy.ok g); cbn [negb].
  - intro E. injection E as <-. right. cbn. auto.
  - destruct (Http.prop "message" d) as [m|e]; [|discriminate].
    intro E. apply new_Response_built in E as [-> _]. left. auto.
Qed.

(** X8.  Every response of [onRequest] carries the header
    [Access-Control-Allow-Origin: *], whatever the environment, the
    request and GitHub's answer. *)
Theorem onRequest_allows_any_origin :
  forall env request fetch,
  Http.has_header "Access-Control-Allow-Origin" "*"
    (fst (GithubProxy.onRequest env request fetch)).
Proof.
  intros env request fetch. unfold Http.has_header, GithubProxy.onRequest.
  destruct (Http.nonempty (GithubProxy.GITHUB_TOKEN env)) as [token|];
    [|cbn; auto].
  destruct (GithubProxy.method request =? "OPTIONS")%string; [cbn; auto|].
  destruct (GithubProxy.attempt token request fetch) as [[r|e] calls] eqn:Ha;
    [|cbn; auto].
  cbn [fst]. unfold GithubProxy.attempt in Ha.
  destruct (GithubProxy.json request) as [d|e]; [|discriminate].
  destruct (GithubProxy.githubUrl d) as [url|].
  - injection Ha as Hr _.
    destruct (fetch url (GithubProxy.githubHeaders token d)) as [g|e];
      [|discriminate].
    apply relay_answer in Hr as [(_ & _ & ->) | (_ & _ & H)];
      [cbn; auto | exact H].
  - injection Ha as <- _. cbn. auto.
Qed.

Lemma githubUrl_host d url :
  GithubProxy.githubUrl d = Some url ->
  prefix "https://api.github.com/" url = true \/
  prefix "https://raw.githubusercontent.com/" url = true.
Proof.
  unfold GithubProxy.githubUrl.
  destruct (GithubProxy.endpoint d) as [ep|]; [|discriminate].
  repeat match goal with
         | |- (if ?c then _ else _) = _ -> _ => destruct c
         end; try discriminate; intro E; injection E as <-.
  - left. apply prefix_correct.
    apply (substring_prefix "https://api.github.com/").
  - left. apply prefix_correct.
    apply (substring_prefix "https://api.github.com/").
  - left. apply prefix_correct.
    apply (substring_prefix "https://api.github.com/").
  - right. apply prefix_correct.
    apply (substring_prefix "https://raw.githubusercontent.com/").
  - left. apply prefix_correct.
    apply (substring_prefix "https://api.github.com/").
Qed.

Lemma githubHeaders_authorize token d :
  In ("Authorization", "Bearer " ++ token)%string
     (GithubProxy.githubHeaders token d) \/
  In ("Authorization", "token " ++ token)%string
     (GithubProxy.githubHeaders token d).
Proof.
  unfold GithubProxy.githubHeaders.
  destruct (GithubProxy.endpoint d) as [ep|]; [|left; now left].
  destruct (String.eqb_spec ep "raw") as [->|Hne].
  - right. now left.
  - left.
    destruct ep as [|c0 ep]; [now left|].
    repeat (match goal with
            | |- context [match ?x with _ => _ end] =>
                is_var x; destruct x
            end; try now left); now destruct Hne.
Qed.

(** X9.  [onRequest] calls GitHub at most once, and only when the token is
    set, the method is not [OPTIONS] and the body was read.  The call goes
    to [api.github.com] or [raw.githubusercontent.com], and carries the
    token in its [Authorization] header. *)
Theorem onRequest_calls_github :
  forall env request fetch,
  snd (GithubProxy.onRequest env request fetch) = [] \/
  exists token d url,
    Http.nonempty (GithubProxy.GITHUB_TOKEN env) = Some token /\
    GithubProxy.method request <> "OPTIONS" /\
    GithubProxy.json request = Fulfilled d /\
    GithubProxy.githubUrl d = Some url /\
    snd (GithubProxy.onRequest env request fetch) =
      [(url, GithubProxy.githubHeaders token d)] /\
    (prefix "https://api.github.com/" url = true \/
     prefix "https://raw.githubusercontent.com/" url = true) /\
    (In ("Authorization", "Bearer " ++ token)%string
        (GithubProxy.githubHeaders token d) \/
     In ("Authorization", "token " ++ token)%string
        (GithubProxy.githubHeaders token d)).
Proof.
  intros env request fetch. unfold GithubProxy.onRequest.
  destruct (Http.nonempty (GithubProxy.GITHUB_TOKEN env)) as [token|];
    [|now left].
  destruct (String.eqb_spec (GithubProxy.method request) "OPTIONS")
    as [|Hm]; [now left|].
  unfold GithubProxy.attempt.
  destruct (GithubProxy.json request) as [d|e] eqn:Hj; [|now left].
  destruct (GithubProxy.githubUrl d) as [url|] eqn:Hu; [|now left].
  right. exists token, d, url. repeat split; auto.
  - now destruct (match fetch url (GithubProxy.githubHeaders token d) with
                  | Fulfilled g => GithubProxy.relay g
                  | Rejected e => Rejected e
                  end).
  - now apply githubUrl_host with d.
  - apply githubHeaders_authorize.
Qed.

Lemma not_ok_status g :
  GithubProxy.ok g = false -> GithubProxy.gh_status g <> 200%Z.
Proof.
  unfold GithubProxy.ok. intros H E. rewrite E in H. discriminate.
Qed.

(** X10.  [onRequest] answers 200 only to a preflight or when GitHub's
    own status was in 200..299; every other answer is 400, 500, or the
    status GitHub gave for its failure. *)
Theorem onRequest_status :
  forall env request fetch,
  let r := fst (GithubProxy.onRequest env request fetch) in
  let calls := snd (GithubProxy.onRequest env request fetch) in
  (Http.status r = 200%Z ->
   GithubProxy.method request = "OPTIONS" \/
   exists url hs g,
     In (url, hs) calls /\ fetch url hs = Fulfilled g /\
     GithubProxy.ok g = true) /\
  (Http.status r = 200%Z \/ Http.status r = 400%Z \/
   Http.status r = 500%Z \/
   exists url hs g,
     In (url, hs) calls /\ fetch url hs = Fulfilled g /\
     GithubProxy.ok g = false /\
     Http.status r = GithubProxy.gh_status g).
Proof.
  intros env request fetch. cbn zeta. unfold GithubProxy.onRequest.
  destruct (Http.nonempty (GithubProxy.GITHUB_TOKEN env)) as [token|];
    [|cbn; split; [discriminate | auto]].
  destruct (String.eqb_spec (GithubProxy.method request) "OPTIONS")
    as [Hm|Hm]; [cbn; split; auto|].
  unfold GithubProxy.attempt.
  destruct (GithubProxy.json request) as [d|e];
    [|cbn; split; [discriminate | auto]].
  destruct (GithubProxy.githubUrl d) as [url|];
    [|cbn; split; [discriminate | auto]].
  destruct (fetch url (GithubProxy.githubHeaders token d)) as [g|e] eqn:Hf;
    [|cbn; split; [discriminate | auto]].
  destruct (GithubProxy.relay g) as [r|e] eqn:Hr;
    [|cbn; split; [discriminate | auto]].
  cbn [fst snd].
  apply relay_answer in Hr as [(Hok & Hst & _) | (Hok & Hst & _)].
  - split.
    + intro E. rewrite Hst in E. now apply not_ok_status in Hok.
    + right. right. right. exists url, (GithubProxy.githubHeaders token d), g.
      repeat split; auto. now left.
  - split; [|now left].
    intros _. right. exists url, (GithubProxy.githubHeaders token d), g.
    repeat split; auto. now left.
Qed.

(** X11.  When GitHub answers a failure status that a response with a body
    can carry, with a JSON object as body, [onRequest] answers that status
    and the object [{error, status, message}]: the message is GitHub's
    when the object has a truthy one, and [Unknown error] otherwise. *)
Theorem onRequest_relays_github_failure :
  forall env request fetch token d url g ct fields,
  Http.nonempty (GithubProxy.GITHUB_TOKEN env) = Some token ->
  GithubProxy.method request <> "OPTIONS" ->
  GithubProxy.json request = Fulfilled d ->
  GithubProxy.githubUrl d = Some url ->
  fetch url (GithubProxy.githubHeaders token d) = Fulfilled g ->
  (300 <= GithubProxy.gh_status g <= 599)%Z ->
  GithubProxy.gh_status g <> 304%Z ->
  Http.nonempty (GithubProxy.content_type g) = Some ct ->
  Http.includes ct "application/json" = true ->
  GithubProxy.gh_json g = Fulfilled (Http.JObj fields) ->
  exists message,
    fst (GithubProxy.onRequest env request fetch) =
      {| Http.status := GithubProxy.gh_status g;
         Http.headers := [("Content-Type", "application/json");
                          ("Access-Control-Allow-Origin", "*")];
         Http.body :=
           Http.BJson
             (Http.JObj
                [("error", Http.JStr "GitHub API request failed");
                 ("status", Http.JNum (GithubProxy.gh_status g));
                 ("message", message)]) |} /\
    (forall v, Http.get "message" fields = Some v ->
               Http.truthy (Some v) = true -> message = v) /\
    (Http.truthy (Http.get "message" fields) = false ->
     message = Http.JStr "Unknown error").
Proof.
  intros env request fetch token d url g ct fields
         Htok Hm Hj Hu Hf Hst H304 Hct Hinc Hjson.
  unfold GithubProxy.onRequest, GithubProxy.attempt.
  rewrite Htok, Hj, Hu, Hf.
  destruct (String.eqb_spec (GithubProxy.method request) "OPTIONS");
    [contradiction|].
  unfold GithubProxy.relay. rewrite Hct, Hinc, Hjson.
  assert (Hok : GithubProxy.ok g = false).
  { unfold GithubProxy.ok.
    destruct (Z.leb_spec (GithubProxy.gh_status g) 299); [lia|].
    apply andb_false_r. }
  rewrite Hok. cbn [negb Http.prop].
  rewrite new_Response_accepts; [|lia|].
  - cbn [fst]. eexists. split; [reflexivity|]. split.
    + intros v Hv Ht. rewrite Hv. now rewrite Ht.
    + intro Hfalse. destruct (Http.get "message" fields) as [v|];
        [now rewrite Hfalse | reflexivity].
  - unfold Http.null_body_status.
    destruct (Z.eqb_spec (GithubProxy.gh_status g) 204); [lia|].
    destruct (Z.eqb_spec (GithubProxy.gh_status g) 205); [lia|].
    destruct (Z.eqb_spec (GithubProxy.gh_status g) 304); [lia|].
    reflexivity.
Qed.

Lemma onRequest_relays_github_failure_witness :
  fst (GithubProxy.onRequest proxy_env
         (proxy_post (tree_request PORTFOLIO_CONFIG "portfoliobear" "main"))
         github_not_found) =
    {| Http.status := 404;
       Http.headers := [("Content-Type", "application/json");
                        ("Access-Control-Allow-Origin", "*")];
       Http.body :=
         Http.BJson
           (Http.JObj
              [("error", Http.JStr "GitHub API request failed");
               ("status", Http.JNum 404);
               ("message", Http.JStr "Not Found")]) |}.
Proof.
  destruct (onRequest_relays_github_failure proxy_env
              (proxy_post (tree_request PORTFOLIO_CONFIG "portfoliobear" "main"))
              github_not_found "ghp_example"
              (posted (tree_request PORTFOLIO_CONFIG "portfoliobear" "main"))
              "https://api.github.com/repos/Trizly-xyz/portfoliobear/git/trees/main?recursive=1"
              not_found "application/json; charset=utf-8"
              [("message", Http.JStr "Not Found")])
    as (message & Hrun & Hmsg & _);
    try discriminate; try (cbn; lia);
    try (rewrite Hrun; now rewrite (Hmsg (Http.JStr "Not Found")));
    reflexivity.
Defined.

(** X12.  With the token set and a method other than [OPTIONS], whatever
    throws inside [onRequest] ends as the answer 500 [Internal server
    error] carrying the error's message: a body that cannot be read, a
    [fetch] that fails, a JSON body of GitHub that does not parse, and
    also a failure of GitHub whose JSON body is [null], where the message
    is the one of reading [message] of [null]. *)
Theorem onRequest_internal_error :
  forall env request fetch token e,
  Http.nonempty (GithubProxy.GITHUB_TOKEN env) = Some token ->
  GithubProxy.method request <> "OPTIONS" ->
  (GithubProxy.json request = Rejected e \/
   exists d url,
     GithubProxy.json request = Fulfilled d /\
     GithubProxy.githubUrl d = Some url /\
     (fetch url (GithubProxy.githubHeaders token d) = Rejected e \/
      exists g ct,
        fetch url (GithubProxy.githubHeaders token d) = Fulfilled g /\
        Http.nonempty (GithubProxy.content_type g) = Some ct /\
        Http.includes ct "application/json" = true /\
        (GithubProxy.gh_json g = Rejected e \/
         (GithubProxy.gh_json g = Fulfilled Http.JNull /\
          GithubProxy.ok g = false /\
          e = "Cannot read properties of null (reading 'message')")))) ->
  fst (GithubProxy.onRequest env request fetch) =
    {| Http.status := 500;
       Http.headers := [("Content-Type", "application/json");
                        ("Access-Control-Allow-Origin", "*")];
       Http.body :=
         Http.BJson
           (Http.JObj [("error", Http.JStr "Internal server error");
                       ("message", Http.JStr e)]) |}.
Proof.
  intros env request fetch token e Htok Hm Hcase.
  unfold GithubProxy.onRequest, GithubProxy.attempt. rewrite Htok.
  destruct (String.eqb_spec (GithubProxy.method request) "OPTIONS");
    [contradiction|].
  destruct Hcase as [-> | (d & url & -> & -> & [-> | Hg])];
    [reflexivity | reflexivity |].
  destruct Hg as (g & ct & -> & Hct & Hinc & Hjson).
  unfold GithubProxy.relay. rewrite Hct, Hinc.
  destruct Hjson as [-> | (-> & -> & ->)]; reflexivity.
Qed.

Lemma onRequest_internal_error_witness :
  fst (GithubProxy.onRequest proxy_env
         (proxy_post (repos_request PORTFOLIO_CONFIG)) github_unreachable) =
    {| Http.status := 500;
       Http.headers := [("Content-Type", "application/json");
                        ("Access-Control-Allow-Origin", "*")];
       Http.body :=
         Http.BJson
           (Http.JObj [("error", Http.JStr "Internal server error");
                       ("message", Http.JStr "Network connection lost.")]) |}.
Proof.
  apply (onRequest_internal_error proxy_env
           (proxy_post (repos_request PORTFOLIO_CONFIG)) github_unreachable
           "ghp_example" "Network connection lost.").
  - reflexivity.
  - discriminate.
  - right. eexists _, _. split; [reflexivity|]. split; [reflexivity|].
    left. reflexivity.
Defined.

(** X13.  When GitHub's status is in 200..299, [onRequest] answers 200
    with GitHub's content type ([application/json] when GitHub names none)
    and a cache lifetime of five minutes.  A body whose type is not JSON
    is passed on as the text it is; a JSON body is passed on as read, a
    JSON string as its bare text. *)
Theorem onRequest_relays_github_success :
  forall env request fetch token d url g,
  Http.nonempty (GithubProxy.GITHUB_TOKEN env) = Some token ->
  GithubProxy.method request <> "OPTIONS" ->
  GithubProxy.json request = Fulfilled d ->
  GithubProxy.githubUrl d = Some url ->
  fetch url (GithubProxy.githubHeaders token d) = Fulfilled g ->
  (200 <= GithubProxy.gh_status g <= 299)%Z ->
  let answer ct b :=
    {| Http.status := 200;
       Http.headers := [("Content-Type", ct);
                        ("Access-Control-Allow-Origin", "*");
                        ("Cache-Control", "public, max-age=300")];
       Http.body := b |} in
  (Http.nonempty (GithubProxy.content_type g) = None ->
   fst (GithubProxy.onRequest env request fetch) =
     answer "application/json" (Http.BText (GithubProxy.gh_text g))) /\
  (forall ct,
     Http.nonempty (GithubProxy.content_type g) = Some ct ->
     Http.includes ct "application/json" = false ->
     fst (GithubProxy.onRequest env request fetch) =
       answer ct (Http.BText (GithubProxy.gh_text g))) /\
  (forall ct v,
     Http.nonempty (GithubProxy.content_type g) = Some ct ->
     Http.includes ct "application/json" = true ->
     GithubProxy.gh_json g = Fulfilled v ->
     fst (GithubProxy.onRequest env request fetch) =
       answer ct match v with
                 | Http.JStr s => Http.BText s
                 | _ => Http.BJson v
                 end).
Proof.
  intros env request fetch token d url g Htok Hm Hj Hu Hf Hst answer.
  assert (Hok : GithubProxy.ok g = true).
  { unfold GithubProxy.ok. apply andb_true_iff. split; apply Z.leb_le; lia. }
  unfold GithubProxy.onRequest, GithubProxy.attempt.
  rewrite Htok, Hj, Hu, Hf.
  destruct (String.eqb_spec (GithubProxy.method request) "OPTIONS");
    [contradiction|].
  unfold GithubProxy.relay. rewrite Hok. cbn [negb].
  repeat split.
  - intros ->. reflexivity.
  - intros ct -> ->. reflexivity.
  - intros ct v -> -> ->. cbn [fst]. now destruct v.
Qed.

Lemma onRequest_relays_github_success_witness :
  fst (GithubProxy.onRequest proxy_env
         (proxy_post (raw_request PORTFOLIO_CONFIG "portfolioBear"
                        "README.md" "main"))
         (github_raw_file "# Bear")) =
    {| Http.status := 200;
       Http.headers := [("Content-Type", "text/plain; charset=utf-8");
                        ("Access-Control-Allow-Origin", "*");
                        ("Cache-Control", "public, max-age=300")];
       Http.body := Http.BText "# Bear" |}.
Proof.
  apply (onRequest_relays_github_success proxy_env
           (proxy_post (raw_request PORTFOLIO_CONFIG "portfolioBear"
                          "README.md" "main"))
           (github_raw_file "# Bear") "ghp_example"
           (posted (raw_request PORTFOLIO_CONFIG "portfolioBear"
                      "README.md" "main"))
           "https://raw.githubusercontent.com/Trizly-xyz/portfolioBear/main/README.md"
           (raw_file "# Bear"));
    try reflexivity; try discriminate.
  cbn. lia.
Defined.

(* ================================================================= *)
(** ** The view counter proxy *)

(** X14.  [onRequestPost] calls the view API at most once, and only when
    the body was read and [VIEW_API] is set: a [POST] to that address
    whose body holds the [visitorId] of the request and nothing else of
    it (an empty object when the request has none). *)
Theorem onRequestPost_calls :
  forall env body fetch,
  snd (Views.onRequestPost env body fetch) = [] \/
  exists api v visitorId,
    Http.nonempty (Views.VIEW_API env) = Some api /\
    body = Fulfilled v /\
    Http.prop "visitorId" v = Fulfilled visitorId /\
    snd (Views.onRequestPost env body fetch) =
      [ {| Views.call_url := api;
           Views.call_method := "POST";
           Views.call_headers := [("Content-Type", "application/json")];
           Views.call_body :=
             Http.BJson
               (Http.JObj match visitorId with
                          | Some id => [("visitorId", id)]
                          | None => []
                          end) |} ].
Proof.
  intros env body fetch. unfold Views.onRequestPost, Views.attempt.
  destruct body as [v|e]; [|now left].
  destruct (Http.prop "visitorId" v) as [visitorId|e] eqn:Hp; [|now left].
  destruct (Http.nonempty (Views.VIEW_API env)) as [api|] eqn:Ha;
    [|now left].
  right. exists api, v, visitorId. repeat split; auto.
  match goal with
  | |- snd (match ?x with Fulfilled _ => _ | Rejected _ => _ end) = _ =>
      now destruct x
  end.
Qed.

(** X15.  [onRequestPost] either passes on the answer of the view API,
    with its status, its JSON body and the header
    [Access-Control-Allow-Origin: *], or answers 500 with one of two
    errors and without that header: [API not configured] (no call was
    made) or [Failed to fetch views]. *)
Theorem onRequestPost_answer :
  forall env body fetch,
  let r := fst (Views.onRequestPost env body fetch) in
  let calls := snd (Views.onRequestPost env body fetch) in
  (exists call resp data,
     calls = [call] /\
     fetch call = Fulfilled resp /\
     Views.api_json resp = Fulfilled data /\
     r = {| Http.status := Views.api_status resp;
            Http.headers := [("Content-Type", "application/json");
                             ("Access-Control-Allow-Origin", "*")];
            Http.body := Http.BJson data |}) \/
  ((calls = [] /\
    r = {| Http.status := 500;
           Http.headers := [("Content-Type", "application/json")];
           Http.body :=
             Http.BJson
               (Http.JObj [("error", Http.JStr "API not configured")]) |})
   \/
   r = {| Http.status := 500;
          Http.headers := [("Content-Type", "application/json")];
          Http.body :=
            Http.BJson
              (Http.JObj [("error", Http.JStr "Failed to fetch views")]) |}).
Proof.
  intros env body fetch. cbn zeta.
  unfold Views.onRequestPost, Views.attempt.
  destruct body as [v|e]; [|right; right; reflexivity].
  destruct (Http.prop "visitorId" v) as [visitorId|e];
    [|right; right; reflexivity].
  destruct (Http.nonempty (Views.VIEW_API env)) as [api|];
    [|right; left; split; reflexivity].
  match goal with
  | |- context [fetch ?c] => set (call := c)
  end.
  destruct (fetch call) as [resp|e] eqn:Hf; [|right; right; reflexivity].
  destruct (Views.api_json resp) as [data|e] eqn:Hd;
    [|right; right; reflexivity].
  destruct (Http.new_Response (Http.BJson data) (Views.api_status resp)
              [("Content-Type", "application/json");
               ("Access-Control-Allow-Origin", "*")]) as [r|e] eqn:Hr;
    [|right; right; reflexivity].
  left. exists call, resp, data. cbn [fst snd].
  apply new_Response_built in Hr as [-> _]. auto.
Qed.

(* ================================================================= *)
(** ** The manager in front of the proxy *)

Lemma string_app_assoc (a b c : string) :
  ((a ++ b) ++ c = a ++ (b ++ c))%string.
Proof. induction a as [|x a IH]; cbn; congruence. Qed.

Lemma prefix_of_append p rest u :
  u = (p ++ rest)%string -> prefix p u = true.
Proof. intros ->. apply prefix_correct. apply substring_prefix. Qed.

(** X16.  The proxy knows every request a manager sends: in every state a
    manager reaches, each request of its list, posted to [onRequest] with
    the token set, is passed to GitHub in one call, never refused as an
    invalid endpoint, and the address asked is the repository list of the
    configured owner, or a raw file or a tree under that owner. *)
Theorem onRequest_serves_the_manager :
  forall JSON_parse localeCompare cfg provider w rq env token fetch,
  reachable JSON_parse localeCompare cfg provider w ->
  In rq (requests w) ->
  Http.nonempty (GithubProxy.GITHUB_TOKEN env) = Some token ->
  exists url,
    GithubProxy.githubUrl (posted rq) = Some url /\
    snd (GithubProxy.onRequest env (proxy_post rq) fetch) =
      [(url, GithubProxy.githubHeaders token (posted rq))] /\
    (prefix ("https://api.github.com/users/" ++ githubOwner cfg ++ "/")
       url = true \/
     prefix ("https://raw.githubusercontent.com/" ++ githubOwner cfg ++ "/")
       url = true \/
     prefix ("https://api.github.com/repos/" ++ githubOwner cfg ++ "/")
       url = true).
Proof.
  intros JSON_parse localeCompare cfg provider w rq env token fetch
         Hw Hin Htok.
  pose proof (reachable_requests _ _ _ _ _ Hw) as Hall.
  rewrite Forall_forall in Hall. destruct (Hall rq Hin) as [Hown Hep].
  assert (Hurl : exists url,
            GithubProxy.githubUrl (posted rq) = Some url /\
            (prefix ("https://api.github.com/users/" ++ githubOwner cfg ++ "/")
               url = true \/
             prefix ("https://raw.githubusercontent.com/"
                       ++ githubOwner cfg ++ "/") url = true \/
             prefix ("https://api.github.com/repos/" ++ githubOwner cfg ++ "/")
               url = true)).
  { unfold GithubProxy.githubUrl, posted.
    cbn [GithubProxy.endpoint GithubProxy.owner GithubProxy.repo
         GithubProxy.path GithubProxy.branch Http.tpl].
    rewrite Hown.
    destruct Hep as [-> | [-> | ->]]; cbn [String.eqb Ascii.eqb Bool.eqb];
      eexists; (split; [reflexivity|]).
    - left. apply (prefix_of_append _ "repos?per_page=100&sort=updated").
      now rewrite !string_app_assoc.
    - right. left.
      apply (prefix_of_append _
               (Http.tpl (repo rq) ++ "/"
                  ++ match branch rq with
                     | Some b => b
                     | None => "main"
                     end ++ "/" ++ Http.tpl (path rq))).
      now rewrite !string_app_assoc.
    - right. right.
      apply (prefix_of_append _
               (Http.tpl (repo rq) ++ "/git/trees/"
                  ++ match branch rq with
                     | Some b => b
                     | None => "main"
                     end ++ "?recursive=1")).
      now rewrite !string_app_assoc. }
  destruct Hurl as (url & Hurl & Hhost). exists url.
  split; [exact Hurl|]. split; [|exact Hhost].
  unfold GithubProxy.onRequest, GithubProxy.attempt, proxy_post.
  rewrite Htok. cbn [GithubProxy.method GithubProxy.json String.eqb
                     Ascii.eqb Bool.eqb].
  rewrite Hurl.
  now destruct (match fetch url (GithubProxy.githubHeaders token (posted rq))
                with
                | Fulfilled g => GithubProxy.relay g
                | Rejected e => Rejected e
                end).
Qed.

Lemma onRequest_serves_the_manager_witness :
  exists url,
    GithubProxy.githubUrl
      (posted (config_request demo_config (repo_named "portfolioBear")))
      = Some url /\
    snd (GithubProxy.onRequest proxy_env
           (proxy_post (config_request demo_config
                          (repo_named "portfolioBear")))
           github_not_found) =
      [(url, GithubProxy.githubHeaders "ghp_example"
               (posted (config_request demo_config
                          (repo_named "portfolioBear"))))] /\
    (prefix ("https://api.github.com/users/" ++ githubOwner demo_config ++ "/")
       url = true \/
     prefix ("https://raw.githubusercontent.com/"
               ++ githubOwner demo_config ++ "/") url = true \/
     prefix ("https://api.github.com/repos/" ++ githubOwner demo_config ++ "/")
       url = true).
Proof.
  apply (onRequest_serves_the_manager never_parses codeUnitCompare
           demo_config demo_provider
           (snd (getAllPortfolios never_parses codeUnitCompare demo_config
                   demo_provider 1000%Z new_world))).
  - apply reach_all. apply reach_new.
  - vm_compute. auto.
  - reflexivity.
Defined.

(** X17.  The thumbnail [transformToPortfolio] derives when the
    [portfolio.json] names none is the address of the thumbnail file
    itself: the request [fetchFileContent] sends for that file, on the
    repository and the branch of the entry, is the one the proxy turns
    into exactly that address. *)
Theorem derived_thumbnail_is_the_raw_address :
  forall cfg provider r c w,
  config_thumbnail c = None \/ config_thumbnail c = Some "" ->
  exists rq,
    requests (snd (fetchFileContent cfg provider (Repo.name r)
                     (thumbnail (expectedFiles cfg))
                     (Portfolio.defaultBranch (portfolio_entry cfg r c)) w)) =
      requests w ++ [rq] /\
    GithubProxy.githubUrl (posted rq) =
      Portfolio.thumbnail (portfolio_entry cfg r c).
Proof.
  intros cfg provider r c w Hc.
  rewrite fetchFileContent_run. eexists. split; [reflexivity|].
  cbn. destruct Hc as [-> | ->]; reflexivity.
Qed.

Lemma derived_thumbnail_is_the_raw_address_witness :
  exists rq,
    requests (snd (fetchFileContent demo_config demo_provider
                     "portfolioApple" "thumbnail.png" (Some "main")
                     new_world)) = [rq] /\
    GithubProxy.githubUrl (posted rq) =
      Some "https://raw.githubusercontent.com/Trizly-xyz/portfolioApple/main/thumbnail.png".
Proof.
  apply (derived_thumbnail_is_the_raw_address demo_config demo_provider
           (repo_named "portfolioApple") None new_world).
  left. reflexivity.
Defined.
